(** * Klantroef media analytics API: model of the Express routes and proofs

    The development embeds the request handlers of [routes/media.js],
    [server.js], [middleware/auth.js] and [routes/auth.js].  The handlers
    are JavaScript functions over a MongoDB store, so the embedding passes
    the store explicitly, returns the reply the handler sends, and records
    where an awaited promise may reject.  The collaborators that are npm packages
    (jsonwebtoken, mongoose's ObjectId, express-rate-limit, the built-in
    [Date]) are modelled by their documented behaviour; what cannot be read
    off the repository (the HMAC, the compact serialisation of a token, the
    ObjectId cast, the bcrypt hash, the key the rate limiter files a client
    address under) is an interface with instances given further down. *)

From Stdlib Require Import ZArith Lia Ascii String List Permutation.
From stdpp Require Import base option numbers list gmap sets strings pretty countable.

Open Scope string_scope.

(** ** JavaScript [Date]: milliseconds since the epoch and [toISOString] *)

Module JSDate.

Local Open Scope Z_scope.

Definition msPerDay : Z := 86400000.

(** [Day(t)] and [TimeWithinDay(t)] of ECMA-262: floor division. *)
Definition Day (t : Z) : Z := t / msPerDay.
Definition TimeWithinDay (t : Z) : Z := t mod msPerDay.

(** The proleptic Gregorian date of a day number, counted in 400-year eras
    that start on 1 March. *)
Definition yearOfEra (doe : Z) : Z :=
  (doe - doe / 1460 + doe / 36524 - doe / 146096) / 365.
Definition dayOfYear (doe : Z) : Z :=
  let yoe := yearOfEra doe in doe - (365 * yoe + yoe / 4 - yoe / 100).
Definition monthIndex (doy : Z) : Z := (5 * doy + 2) / 153.
Definition dayOfMonth (doy : Z) : Z := doy - (153 * monthIndex doy + 2) / 5 + 1.
Definition monthOf (mp : Z) : Z := if mp <? 10 then mp + 3 else mp - 9.

(** [(YearFromTime, MonthFromTime + 1, DateFromTime)] of the day [days]. *)
Definition civil (days : Z) : Z * Z * Z :=
  let z := days + 719468 in
  let era := z / 146097 in
  let doe := z mod 146097 in
  let yoe := yearOfEra doe in
  let doy := dayOfYear doe in
  let m := monthOf (monthIndex doy) in
  ((if m <=? 2 then yoe + era * 400 + 1 else yoe + era * 400), m, dayOfMonth doy).

(** [MakeDay]: the day number of a calendar date. *)
Definition daysFromCivil (y m d : Z) : Z :=
  let y' := if m <=? 2 then y - 1 else y in
  let era := y' / 400 in
  let yoe := y' mod 400 in
  let mp := if 2 <? m then m - 3 else m + 9 in
  let doy := (153 * mp + 2) / 5 + d - 1 in
  era * 146097 + (yoe * 365 + yoe / 4 - yoe / 100 + doy) - 719468.

(** ECMA-262 defines the date of a day through the first day of each year
    and the lengths of the months; [civil] is checked against that below. *)
Definition DayFromYear (y : Z) : Z :=
  365 * (y - 1970) + (y - 1969) / 4 - (y - 1901) / 100 + (y - 1601) / 400.

Definition InLeapYear (y : Z) : bool :=
  (y mod 4 =? 0) && (negb (y mod 100 =? 0) || (y mod 400 =? 0)).

(** [(MonthFromTime + 1, DateFromTime)] from [DayWithinYear] and [InLeapYear]. *)
Definition MonthDate (dayWithinYear leap : Z) : Z * Z :=
  if dayWithinYear <? 31 then (1, dayWithinYear + 1)
  else if dayWithinYear <? 59 + leap then (2, dayWithinYear - 30)
  else if dayWithinYear <? 90 + leap then (3, dayWithinYear - 58 - leap)
  else if dayWithinYear <? 120 + leap then (4, dayWithinYear - 89 - leap)
  else if dayWithinYear <? 151 + leap then (5, dayWithinYear - 119 - leap)
  else if dayWithinYear <? 181 + leap then (6, dayWithinYear - 150 - leap)
  else if dayWithinYear <? 212 + leap then (7, dayWithinYear - 180 - leap)
  else if dayWithinYear <? 243 + leap then (8, dayWithinYear - 211 - leap)
  else if dayWithinYear <? 273 + leap then (9, dayWithinYear - 242 - leap)
  else if dayWithinYear <? 304 + leap then (10, dayWithinYear - 272 - leap)
  else if dayWithinYear <? 334 + leap then (11, dayWithinYear - 303 - leap)
  else (12, dayWithinYear - 333 - leap).

Definition digit (n : Z) : ascii := ascii_of_nat (48 + Z.to_nat (n mod 10)).
Definition pad2 (n : Z) : string := String (digit (n / 10)) (String (digit n) "").
Definition pad3 (n : Z) : string := String (digit (n / 100)) (pad2 n).
Definition pad4 (n : Z) : string := String (digit (n / 1000)) (pad3 n).
Definition pad6 (n : Z) : string :=
  String (digit (n / 100000)) (String (digit (n / 10000)) (pad4 n)).

(** Years 0 to 9999 print with four digits, every other year as a sign and
    six digits (the expanded year of ECMA-262). *)
Definition yearString (y : Z) : string :=
  if (0 <=? y) && (y <=? 9999) then pad4 y
  else String.append (if y <? 0 then "-" else "+") (pad6 (Z.abs y)).

(** [Date.prototype.toISOString]: [YYYY-MM-DDTHH:mm:ss.sssZ]. *)
Definition toISOString (t : Z) : string :=
  let '(y, m, d) := civil (Day t) in
  let w := TimeWithinDay t in
  String.append (yearString y)
   (String.append "-" (String.append (pad2 m) (String.append "-" (String.append (pad2 d)
   (String.append "T" (String.append (pad2 (w / 3600000)) (String.append ":"
   (String.append (pad2 (w / 60000 mod 60)) (String.append ":"
   (String.append (pad2 (w / 1000 mod 60)) (String.append "."
   (String.append (pad3 (w mod 1000)) "Z")))))))))))).

(** The instants from 0000-01-01T00:00:00.000Z up to 9999-12-31T23:59:59.999Z. *)
Definition fourDigitYear (t : Z) : Prop :=
  -62167219200000 <= t < 253402300800000.

(** The calendar day as the spec words it: [YYYY-MM-DD] of a day number. *)
Definition YYYY_MM_DD (day : Z) : string :=
  let '(y, m, d) := civil day in
  String.append (pad4 y) (String.append "-" (String.append (pad2 m)
    (String.append "-" (pad2 d)))).

End JSDate.

(** ** JavaScript strings and values *)

Module JS.

(** [s.split(sep)] for a one-character separator: always at least one
    segment, an empty one between two adjacent separators. *)
Fixpoint split (sep : ascii) (s : string) : list string :=
  match s with
  | EmptyString => [""]
  | String c r =>
      if Ascii.eqb c sep then "" :: split sep r
      else match split sep r with
           | w :: ws => String c w :: ws
           | [] => [String c ""]
           end
  end.

(** [s.slice(0, n)]. *)
Definition slice0 (n : nat) (s : string) : string := substring 0 n s.

(** A string-valued expression that may be [undefined]: [!v]. *)
Definition falsy (v : option string) : bool :=
  match v with
  | None => true
  | Some s => bool_decide (s = "")
  end.

Fixpoint has_space (s : string) : bool :=
  match s with
  | EmptyString => false
  | String c r => Ascii.eqb c " " || has_space r
  end.

(** The values a token payload carries. *)
Inductive JsVal : Type :=
  | JStr (s : string)
  | JNum (n : Z).

(** [`${v}`] for a property that may be missing. *)
Definition template (v : option JsVal) : string :=
  match v with
  | None => "undefined"
  | Some (JStr s) => s
  | Some (JNum n) => pretty n
  end.

(** What evaluating a call or awaiting a promise yields. *)
Inductive Completion (A : Type) : Type :=
  | Normal (a : A)
  | Throw.

End JS.

Arguments JS.Normal {A} a.
Arguments JS.Throw {A}.

Import JSDate JS.

#[export] Instance JsVal_eq_dec : EqDecision JsVal.
Proof. solve_decision. Defined.

#[export] Instance JsVal_countable : Countable JsVal :=
  inj_countable'
    (fun v => match v with JStr s => inl s | JNum n => inr n end)
    (fun x => match x with inl s => JStr s | inr n => JNum n end)
    (fun v => match v with JStr _ => eq_refl | JNum _ => eq_refl end).

(** ** jsonwebtoken: [jwt.sign] and [jwt.verify] with HS256 *)

(** A decoded token: the claims object and the signature segment. *)
Record Jws : Type := { jws_payload : gmap string JsVal; jws_signature : string }.

(** The parts of the package the repository cannot determine: the keyed
    hash, and the compact serialisation with its parser.  A serialised token
    parses back; the empty string is no token, and a string that parses holds
    no space (the compact form is base64url segments joined by dots). *)
Class JwtCodec : Type := {
  hs256 : string -> gmap string JsVal -> string;
  compact : Jws -> string;
  parse : string -> option Jws;
  parse_compact : forall j, parse (compact j) = Some j;
  parse_empty : parse "" = None;
  parse_no_space : forall s j, parse s = Some j -> has_space s = false
}.

Inductive JwtError : Type :=
  | JsonWebTokenError (message : string)
  | NotBeforeError
  | TokenExpiredError.

(** [expiresIn: '10m'] and [expiresIn: '1h'], in seconds. *)
Definition expiresIn_10m : Z := 600.
Definition expiresIn_1h : Z := 3600.

#[export] Instance Completion_bind : MBind Completion :=
  fun A B k c => match c with Normal a => k a | Throw => Throw end.
#[export] Instance Completion_ret : MRet Completion := fun A a => Normal a.

(** [try { body } catch (err) { handler }]. *)
Definition try_catch {A : Type} (body : Completion A) (handler : A) : A :=
  match body with
  | Normal a => a
  | Throw => handler
  end.

Section Jwt.
Context `{JwtCodec}.

(** [jwt.sign(payload, secret, { expiresIn })] called without a callback at
    the instant [now] (milliseconds): throws on a missing secret, otherwise
    stamps [iat] and [exp] in seconds.  The payloads the routes sign carry
    neither claim beforehand. *)
Definition jwt_sign (payload : gmap string JsVal) (secret : string)
    (expiresIn : Z) (now : Z) : Completion string :=
  if bool_decide (secret = "") then Throw
  else
    let iat := (now / 1000)%Z in
    let claims := <["exp" := JNum (iat + expiresIn)]> (<["iat" := JNum iat]> payload) in
    Normal (compact {| jws_payload := claims; jws_signature := hs256 secret claims |}).

(** The [nbf] and [exp] checks against the clock, in seconds. *)
Definition check_nbf (claims : gmap string JsVal) (clock : Z) : option JwtError :=
  match claims !! "nbf" with
  | None => None
  | Some (JStr _) => Some (JsonWebTokenError "invalid nbf value")
  | Some (JNum nbf) => if (clock <? nbf)%Z then Some NotBeforeError else None
  end.

Definition check_exp (claims : gmap string JsVal) (clock : Z) : option JwtError :=
  match claims !! "exp" with
  | None => None
  | Some (JStr _) => Some (JsonWebTokenError "invalid exp value")
  | Some (JNum exp) => if (exp <=? clock)%Z then Some TokenExpiredError else None
  end.

(** [jwt.verify(token, secret, callback)]: every failure is handed to the
    callback as [err]; the result is what the callback receives, [inl err]
    or [inr decoded]. *)
Definition jwt_verify (token secret : string) (now : Z) : JwtError + gmap string JsVal :=
  if bool_decide (token = "") then inl (JsonWebTokenError "jwt must be provided")
  else
    match parse token with
    | None => inl (JsonWebTokenError "jwt malformed")
    | Some j =>
        if bool_decide (secret = "") then
          inl (JsonWebTokenError "secret or public key must be provided")
        else if negb (String.eqb (jws_signature j) (hs256 secret (jws_payload j))) then
          inl (JsonWebTokenError "invalid signature")
        else
          let clock := (now / 1000)%Z in
          match check_nbf (jws_payload j) clock with
          | Some err => inl err
          | None =>
              match check_exp (jws_payload j) clock with
              | Some err => inl err
              | None => inr (jws_payload j)
              end
          end
    end.

End Jwt.

(** ** mongoose: ObjectIds, the two collections, and their queries *)

(** [castObjectId s] is the ObjectId a string casts to, in its canonical
    rendering; [mongoose.Types.ObjectId.isValid] accepts what casts. *)
Class ObjectIdCast : Type := { castObjectId : string -> option string }.

Record MediaAsset : Type := {
  _id : string;
  title : string;
  type : string;
  file_url : string
}.

Record MediaViewLog : Type := {
  media_id : string;
  viewed_by_ip : string;
  timestamp : Z
}.

#[export] Instance MediaViewLog_eq_dec : EqDecision MediaViewLog.
Proof. solve_decision. Defined.

(** Modelled from the spec: [models/MediaViewLog.js] is not among the
    sources.  A view-log entry is [{media_id, viewed_by_ip, timestamp}] with
    [timestamp] an instant; a document built without a [timestamp] takes the
    instant of its creation. *)
Definition new_MediaViewLog (media_id : string) (viewed_by_ip : string)
    (timestamp : option Z) (now : Z) : MediaViewLog :=
  {| media_id := media_id; viewed_by_ip := viewed_by_ip;
     timestamp := default now timestamp |}.

Record Db : Type := {
  mediaassets : list MediaAsset;
  mediaviewlogs : list MediaViewLog
}.

(** Which awaited store operations reject during one request. *)
Record Faults : Type := {
  findById_rejects : bool;
  save_rejects : bool;
  find_rejects : bool
}.

Definition no_faults : Faults :=
  {| findById_rejects := false; save_rejects := false; find_rejects := false |}.

Section Store.
Context `{ObjectIdCast}.

Definition isValid (id : string) : bool :=
  match castObjectId id with
  | Some _ => true
  | None => false
  end.

(** [MediaAsset.findById(id)]. *)
Definition MediaAsset_findById (f : Faults) (d : Db) (id : string)
    : Completion (option MediaAsset) :=
  if findById_rejects f then Throw
  else
    match castObjectId id with
    | None => Throw
    | Some oid => Normal (List.find (fun a => bool_decide (_id a = oid)) (mediaassets d))
    end.

(** [MediaViewLog.find({ media_id: id })]. *)
Definition MediaViewLog_find (f : Faults) (d : Db) (id : string)
    : Completion (list MediaViewLog) :=
  if find_rejects f then Throw
  else
    match castObjectId id with
    | None => Throw
    | Some oid => Normal (List.filter (fun l => bool_decide (media_id l = oid)) (mediaviewlogs d))
    end.

End Store.

(** [doc.save()] on a new document. *)
Definition MediaViewLog_save (f : Faults) (d : Db) (doc : MediaViewLog) : Completion Db :=
  if save_rejects f then Throw
  else Normal {| mediaassets := mediaassets d; mediaviewlogs := mediaviewlogs d ++ [doc] |}.

Definition MediaAsset_save (f : Faults) (d : Db) (doc : MediaAsset) : Completion Db :=
  if save_rejects f then Throw
  else Normal {| mediaassets := mediaassets d ++ [doc]; mediaviewlogs := mediaviewlogs d |}.

(** ** Express: requests, replies, middleware and the route handlers *)

Record Summary : Type := {
  total_views : nat;
  unique_ips : nat;
  views_per_day : gmap string nat
}.

(** What a handler passes to [res.json] or [res.send]. *)
Inductive Body : Type :=
  | Json_message (message : string)
  | Json_stream_url (secure_stream_url : string)
  | Json_summary (s : Summary)
  | Json_media (media : MediaAsset)
  | Send (text : string).

Record Response : Type := { status : nat; body : Body }.

Definition reply (status : nat) (body : Body) : Response :=
  {| status := status; body := body |}.

(** [process.env] as read at start-up, [PORT] already defaulted. *)
Record Config : Type := {
  STREAM_TOKEN_SECRET : string;
  jwtSecret : string;
  PORT : string
}.

(** What one request brings besides its parameters: the clock reading, the
    client address [req.ip], the [_id] mongoose would give a new document,
    and the store operations that reject. *)
Record Env : Type := {
  now : Z;
  ip : string;
  new_id : string;
  faults : Faults
}.

(** *** express-rate-limit, memory store: a fixed window per key

    Each key has its own count and reset time; the first request after the
    reset time opens a window of [windowMs], and a request whose count
    within the window exceeds [max] is refused.

    The route sets no [keyGenerator], so the key of a request is the
    package's default for [req.ip], and the repository does not pin the
    package's version: up to version 7 the key is the address itself, from
    version 8 it is the address for IPv4 and the /56 network for IPv6.  The
    default is therefore an interface. *)
Class KeyGenerator : Type := { keyGenerator : string -> string }.

Definition windowMs : Z := 60 * 1000.
Definition max : nat := 1.

Definition viewRateLimiter `{KeyGenerator} (hits : gmap string (nat * Z)) (ip : string)
    (now : Z) : bool * gmap string (nat * Z) :=
  let key := keyGenerator ip in
  let '(n, resetTime) :=
    match hits !! key with
    | Some (n, resetTime) =>
        if (resetTime <=? now)%Z then (0, (now + windowMs)%Z) else (n, resetTime)
    | None => (0, (now + windowMs)%Z)
    end in
  (bool_decide (S n <= max), <[key := (S n, resetTime)]> hits).

Definition too_many : Response :=
  reply 429 (Send "Too many views logged from this IP, please try again later.").

(** *** The analytics pass of [GET /:id/analytics] *)

(** [log.timestamp.toISOString().slice(0, 10)]. *)
Definition day_key (log : MediaViewLog) : string := slice0 10 (toISOString (timestamp log)).

(** [views_per_day[day] = (views_per_day[day] || 0) + 1]. *)
Definition count_day (views_per_day : gmap string nat) (log : MediaViewLog)
    : gmap string nat :=
  let day := day_key log in
  <[day := default 0 (views_per_day !! day) + 1]> views_per_day.

Definition summarize (logs : list MediaViewLog) : Summary :=
  {| total_views := length logs;
     unique_ips := size (list_to_set (viewed_by_ip <$> logs) : gset string);
     views_per_day := foldl count_day ∅ logs |}.

Section Routes.
Context `{JwtCodec} `{ObjectIdCast} {limiter_key : KeyGenerator}.
Variable cfg : Config.

(** [middleware/auth.js]: the reply it sends itself, or the decoded user it
    hands to [next()].  [token] is [authHeader && authHeader.split(' ')[1]];
    past [!token] it is a non-empty string. *)
Definition authenticateToken (e : Env) (authHeader : option string)
    : Response + gmap string JsVal :=
  let token :=
    match authHeader with
    | None => None
    | Some h => if falsy (Some h) then Some h else split " " h !! 1
    end in
  if falsy token then inl (reply 401 (Json_message "Unauthorized: No token provided"))
  else
    match jwt_verify (default "" token) (jwtSecret cfg) (now e) with
    | inl err => inl (reply 403 (Json_message "Forbidden: Invalid token"))
    | inr user => inr user
    end.

(** [POST /media], after authentication.  [body] is [req.body]: [None]
    when no body was parsed and [req.body] is [undefined], otherwise the
    three properties the handler reads.  The destructuring
    [const { title, type, file_url } = req.body] stands before any [try]:
    on [undefined] it throws and the handler's promise rejects. *)
Definition post_media (e : Env) (d : Db)
    (body : option (option string * option string * option string))
    : Completion (Response * Db) :=
  match body with
  | None => Throw
  | Some (title, type, file_url) =>
      mret
        (if falsy title || falsy type || falsy file_url then
           (reply 400 (Json_message "title, type, and file_url required"), d)
         else if negb (bool_decide (default "" type ∈ ["video"; "audio"])) then
           (reply 400 (Json_message "type must be 'video' or 'audio'"), d)
         else
           let media := {| _id := new_id e; title := default "" title;
                           type := default "" type; file_url := default "" file_url |} in
           try_catch
             (d' ← MediaAsset_save (faults e) d media;
              mret (reply 201 (Json_media media), d'))
             (reply 500 (Json_message "Server error"), d))
  end.

(** [GET /media/:id/stream-url]. *)
Definition get_stream_url (e : Env) (d : Db) (id : string) : Response * Db :=
  if negb (isValid id) then (reply 400 (Json_message "Invalid media ID"), d)
  else
    try_catch
      (media ← MediaAsset_findById (faults e) d id;
       match media with
       | None => mret (reply 404 (Json_message "Media not found"), d)
       | Some media =>
           streamToken ← jwt_sign
             (<["fileUrl" := JStr (file_url media)]> {["mediaId" := JStr (_id media)]})
             (STREAM_TOKEN_SECRET cfg) expiresIn_10m (now e);
           d' ← MediaViewLog_save (faults e) d
             (new_MediaViewLog (_id media) (ip e) None (now e));
           mret (reply 200 (Json_stream_url
                   ("http://localhost:" +:+ PORT cfg +:+ "/stream/" +:+ streamToken)), d')
       end)
      (reply 500 (Json_message "Server error"), d).

(** [GET /stream/:token] of [server.js], and the same handler mounted at
    [/media/stream/:token]. *)
Definition get_stream (e : Env) (token : string) : Response :=
  match jwt_verify token (STREAM_TOKEN_SECRET cfg) (now e) with
  | inl err => reply 403 (Send "Forbidden: Invalid or expired stream link.")
  | inr decoded =>
      reply 200 (Send ("Access granted to stream file: " +:+ template (decoded !! "fileUrl")))
  end.

(** [POST /media/:id/view], after authentication and the rate limiter.  The
    lookup is awaited outside the [try]: its rejection is the handler's. *)
Definition post_view (e : Env) (d : Db) (id : string) : Completion (Response * Db) :=
  if negb (isValid id) then mret (reply 400 (Json_message "Invalid media ID"), d)
  else
    media ← MediaAsset_findById (faults e) d id;
    match media with
    | None => mret (reply 404 (Json_message "Media not found"), d)
    | Some media =>
        mret (try_catch
          (d' ← MediaViewLog_save (faults e) d
             (new_MediaViewLog (_id media) (ip e) (Some (now e)) (now e));
           mret (reply 201 (Json_message "View logged"), d'))
          (reply 500 (Json_message "Server error"), d))
    end.

(** [GET /media/:id/analytics], after authentication. *)
Definition get_analytics (e : Env) (d : Db) (id : string) : Completion Response :=
  if negb (isValid id) then mret (reply 400 (Json_message "Invalid media ID"))
  else
    media ← MediaAsset_findById (faults e) d id;
    match media with
    | None => mret (reply 404 (Json_message "Media not found"))
    | Some media =>
        mret (try_catch
          (logs ← MediaViewLog_find (faults e) d id;
           mret (reply 200 (Json_summary (summarize logs))))
          (reply 500 (Json_message "Server error")))
    end.

(** *** The application: one request against the store and the limiter *)

Record State : Type := {
  db : Db;
  hits : gmap string (nat * Z)
}.

(** The routes over the two collections; those of [routes/auth.js] touch
    neither and are left out. *)
Inductive Request : Type :=
  | POST_media (authorization : option string)
      (body : option (option string * option string * option string))
  | GET_stream_url (id : string)
  | GET_stream (token : string)
  | POST_view (authorization : option string) (id : string)
  | GET_analytics (authorization : option string) (id : string).

(** The reply, or [Throw] when the handler's promise rejects and the handler
    sends nothing, with the state the request leaves behind. *)
Definition handle (st : State) (e : Env) (req : Request) : Completion Response * State :=
  match req with
  | POST_media authorization body =>
      match authenticateToken e authorization with
      | inl r => (Normal r, st)
      | inr user =>
          match post_media e (db st) body with
          | Normal (r, d') => (Normal r, {| db := d'; hits := hits st |})
          | Throw => (Throw, st)
          end
      end
  | GET_stream_url id =>
      let '(r, d') := get_stream_url e (db st) id in
      (Normal r, {| db := d'; hits := hits st |})
  | GET_stream token => (Normal (get_stream e token), st)
  | POST_view authorization id =>
      match authenticateToken e authorization with
      | inl r => (Normal r, st)
      | inr user =>
          let '(pass, hits') := viewRateLimiter (hits st) (ip e) (now e) in
          if pass then
            match post_view e (db st) id with
            | Normal (r, d') => (Normal r, {| db := d'; hits := hits' |})
            | Throw => (Throw, {| db := db st; hits := hits' |})
            end
          else (Normal too_many, {| db := db st; hits := hits' |})
      end
  | GET_analytics authorization id =>
      match authenticateToken e authorization with
      | inl r => (Normal r, st)
      | inr user => (get_analytics e (db st) id, st)
      end
  end.

Definition initial : State :=
  {| db := {| mediaassets := []; mediaviewlogs := [] |}; hits := ∅ |}.

(** The states the application reaches from the empty store. *)
Inductive reachable : State -> Prop :=
  | reachable_initial : reachable initial
  | reachable_handle st e req : reachable st -> reachable (handle st e req).2.

(** A sequence of requests, each with what it brings, handled in order. *)
Fixpoint run (st : State) (reqs : list (Env * Request)) : list (Completion Response) * State :=
  match reqs with
  | [] => ([], st)
  | (e, req) :: rest =>
      let '(o, st') := handle st e req in
      let '(os, st'') := run st' rest in
      (o :: os, st'')
  end.

(** The three ways a presented token fails: it does not parse, its signature
    is not the one the secret gives, or its [exp] has been reached. *)
Definition rejected_token (secret : string) (now : Z) (token : string) : Prop :=
  parse token = None \/
  (exists j, parse token = Some j /\ jws_signature j <> hs256 secret (jws_payload j)) \/
  (exists j exp, parse token = Some j /\ jws_payload j !! "exp" = Some (JNum exp) /\
     (exp * 1000 <= now)%Z).

End Routes.

(** The outcomes the ingestion contract lists: Accepted, RateLimited,
    NotFound, InvalidId. *)
Definition in_ingest_contract (o : Completion Response) : Prop :=
  exists r, o = Normal r /\ status r ∈ [201; 429; 404; 400].

(** ** Instances of the interfaces, for running the model *)

(** A positive number as its binary digits, lowest first; the last digit is
    the leading one. *)
Fixpoint pos_to_bits (p : positive) : string :=
  match p with
  | xH => "1"
  | xO q => String "0" (pos_to_bits q)
  | xI q => String "1" (pos_to_bits q)
  end.

Fixpoint bits_to_pos (s : string) : option positive :=
  match s with
  | EmptyString => None
  | String c r =>
      match r with
      | EmptyString => if Ascii.eqb c "1" then Some xH else None
      | String _ _ =>
          match bits_to_pos r with
          | None => None
          | Some q =>
              if Ascii.eqb c "0" then Some (xO q)
              else if Ascii.eqb c "1" then Some (xI q)
              else None
          end
      end
  end.

(** A short keyed digest: a polynomial checksum over the bits of the number
    stdpp's [Countable] assigns to the secret and the claims. *)
Fixpoint checksum (p : positive) (acc : N) : N :=
  match p with
  | xH => (acc * 31 + 1) mod 1000003
  | xO q => checksum q ((acc * 31 + 2) mod 1000003)
  | xI q => checksum q ((acc * 31 + 3) mod 1000003)
  end%N.

(** A codec over binary digits: a token is the digits of the number stdpp's
    [Countable] assigns to its claims and signature. *)
Definition binary_codec : JwtCodec.
Proof.
  refine {|
    hs256 := fun secret claims => pretty (checksum (encode (secret, claims)) 7);
    compact := fun j => pos_to_bits (encode (jws_payload j, jws_signature j));
    parse := fun s =>
      match bits_to_pos s with
      | None => None
      | Some p =>
          match decode p with
          | None => None
          | Some (claims, sg) => Some {| jws_payload := claims; jws_signature := sg |}
          end
      end
  |}.
  - abstract (intros [claims sg]; simpl;
      assert (Hbits : forall p, bits_to_pos (pos_to_bits p) = Some p)
        by (induction p as [q IH|q IH|]; simpl; [| |reflexivity];
            rewrite IH; destruct q; reflexivity);
      rewrite Hbits, decode_encode; reflexivity).
  - reflexivity.
  - abstract (intros s j Hs;
      assert (Hbits : forall s, is_Some (bits_to_pos s) -> has_space s = false)
        by (clear; induction s as [|c r IH]; [reflexivity|];
            simpl; destruct r as [|c' r'];
            [ destruct (Ascii.eqb_spec c "1") as [->|]; [reflexivity|intros [? [=]]]
            | destruct (bits_to_pos (String c' r')) as [q|] eqn:Hq; [|intros [? [=]]];
              rewrite IH by eauto;
              destruct (Ascii.eqb_spec c "0") as [->|]; [reflexivity|];
              destruct (Ascii.eqb_spec c "1") as [->|]; [reflexivity|intros [? [=]]] ]);
      apply Hbits; destruct (bits_to_pos s); [eauto|discriminate]).
Defined.

Definition is_hex (c : ascii) : bool :=
  let n := nat_of_ascii c in
  (48 <=? n)%nat && (n <=? 57)%nat || (97 <=? n)%nat && (n <=? 102)%nat
  || (65 <=? n)%nat && (n <=? 70)%nat.

Definition to_lower (c : ascii) : ascii :=
  let n := nat_of_ascii c in
  if (65 <=? n)%nat && (n <=? 90)%nat then ascii_of_nat (n + 32) else c.

Fixpoint map_string (f : ascii -> ascii) (s : string) : string :=
  match s with
  | EmptyString => EmptyString
  | String c r => String (f c) (map_string f r)
  end.

(** Twenty-four hexadecimal digits, compared in lower case. *)
Definition hex24 : ObjectIdCast :=
  {| castObjectId := fun s =>
       if (String.length s =? 24)%nat && forallb is_hex (list_ascii_of_string s)
       then Some (map_string to_lower s) else None |}.

(** The key of express-rate-limit up to version 7, and of version 8 for an
    IPv4 address, which is what the run below uses: the address itself. *)
Definition address_key : KeyGenerator := {| keyGenerator := fun ip => ip |}.

(** The key of express-rate-limit 8 with its default [ipv6Subnet] of 56: an
    IPv6 address is filed under its /56 network, any other string under
    itself.  The addresses read are groups of one to four hexadecimal
    digits with at most one [::] and an optional dotted IPv4 tail; the
    network is written as its non-zero leading groups followed by [::/56]. *)
Section SubnetKey.
Local Open Scope N_scope.

Definition hex_value (c : ascii) : option N :=
  let n := N_of_ascii c in
  if (48 <=? n) && (n <=? 57) then Some (n - 48)
  else if (97 <=? n) && (n <=? 102) then Some (n - 87)
  else if (65 <=? n) && (n <=? 70) then Some (n - 55)
  else None.

Definition hex_group (s : string) : option N :=
  if (1 <=? String.length s)%nat && (String.length s <=? 4)%nat then
    foldl (fun acc c => a ← acc; v ← hex_value c; Some (a * 16 + v)) (Some 0)
      (list_ascii_of_string s)
  else None.

Definition decimal_octet (s : string) : option N :=
  let digits := list_ascii_of_string s in
  let value := foldl (fun acc c => acc * 10 + (N_of_ascii c - 48)) 0 digits in
  if forallb (fun c => (48 <=? N_of_ascii c) && (N_of_ascii c <=? 57)) digits
     && (1 <=? length digits)%nat && (length digits <=? 3)%nat
     && (value <=? 255)
     && ((length digits =? 1)%nat || negb (String.prefix "0" s))
  then Some value else None.

Definition ipv4_groups (s : string) : option (list N) :=
  match mapM decimal_octet (split "." s) with
  | Some [a; b; c; d] => Some [a * 256 + b; c * 256 + d]
  | _ => None
  end.

(** The groups between single colons; only the last one may be an IPv4 tail. *)
Fixpoint colon_groups (tail_allowed : bool) (segments : list string) : option (list N) :=
  match segments with
  | [] => Some []
  | [s] =>
      match hex_group s with
      | Some g => Some [g]
      | None => if tail_allowed then ipv4_groups s else None
      end
  | s :: rest => g ← hex_group s; gs ← colon_groups tail_allowed rest; Some (g :: gs)
  end.

Definition groups_of (tail_allowed : bool) (s : string) : option (list N) :=
  if bool_decide (s = "") then Some [] else colon_groups tail_allowed (split ":" s).

(** The text before and after the first [::]. *)
Fixpoint cut_double_colon (s : string) : option (string * string) :=
  match s with
  | EmptyString => None
  | String c r =>
      match r with
      | String c' r' =>
          if Ascii.eqb c ":" && Ascii.eqb c' ":" then Some ("", r')
          else match cut_double_colon r with
               | Some (before, after) => Some (String c before, after)
               | None => None
               end
      | EmptyString => None
      end
  end.

Definition ipv6_groups (ip : string) : option (list N) :=
  match cut_double_colon ip with
  | None =>
      gs ← groups_of true ip;
      if (length gs =? 8)%nat then Some gs else None
  | Some (before, after) =>
      match cut_double_colon after with
      | Some _ => None
      | None =>
          gl ← groups_of false before;
          gr ← groups_of true after;
          if (length gl + length gr <=? 7)%nat
          then Some (gl ++ replicate (8 - (length gl + length gr)) 0%N ++ gr)%list
          else None
      end
  end.

Definition hex_digit (n : N) : ascii :=
  if n <? 10 then ascii_of_N (48 + n) else ascii_of_N (87 + n).

Fixpoint drop_zeros (l : list N) : list N :=
  match l with
  | 0 :: rest => drop_zeros rest
  | _ => l
  end.

Definition to_hex (n : N) : string :=
  let digits := [n / 4096 mod 16; n / 256 mod 16; n / 16 mod 16; n mod 16] in
  match drop_zeros digits with
  | [] => "0"
  | ds => string_of_list_ascii (hex_digit <$> ds)
  end.

Fixpoint join_colon (gs : list string) : string :=
  match gs with
  | [] => ""
  | [g] => g
  | g :: rest => g +:+ ":" +:+ join_colon rest
  end.

Definition network56 (groups : list N) : string :=
  let kept := (take 3 groups ++ ((fun g => N.land g 65280) <$> take 1 (drop 3 groups)))%list in
  let leading := reverse (drop_zeros (reverse kept)) in
  join_colon (to_hex <$> leading) +:+ "::/56".

Definition subnet_key : KeyGenerator :=
  {| keyGenerator := fun ip =>
       match ipv6_groups ip with
       | Some groups => network56 groups
       | None => ip
       end |}.

End SubnetKey.

(** ** Quantities the statements below speak of *)

(** The sum of the counts of a [views_per_day] object. *)
Definition sum_values (m : gmap string nat) : nat :=
  map_fold (fun _ n acc => n + acc) 0 m.

(** How many of the rows fall under the key [k]. *)
Definition rows_on (k : string) (logs : list MediaViewLog) : nat :=
  length (List.filter (fun l => bool_decide (day_key l = k)) logs).

(** The store after one row has been appended. *)
Definition with_log (d : Db) (l : MediaViewLog) : Db :=
  {| mediaassets := mediaassets d; mediaviewlogs := mediaviewlogs d ++ [l] |}.

(** The rows of one asset, as the store holds them. *)
Definition logs_of (oid : string) (d : Db) : list MediaViewLog :=
  List.filter (fun l => bool_decide (media_id l = oid)) (mediaviewlogs d).

(** * A run of the model: one asset, three stored views *)

Definition cfgW : Config :=
  {| STREAM_TOKEN_SECRET := "stream-secret"; jwtSecret := "session-secret"; PORT := "3000" |}.

Definition assetW : MediaAsset :=
  {| _id := "64d2f0c1a5b3e47f9c0d1e2a"; title := "Test Video"; type := "video";
     file_url := "http://example.com/video.mp4" |}.

(** 2024-08-01T10:00:00.000Z, 2024-08-01T23:59:59.999Z, 2024-08-02T00:00:00.000Z. *)
Definition logsW : list MediaViewLog :=
  [ {| media_id := "64d2f0c1a5b3e47f9c0d1e2a"; viewed_by_ip := "10.0.0.1";
       timestamp := 1722506400000 |};
    {| media_id := "64d2f0c1a5b3e47f9c0d1e2a"; viewed_by_ip := "10.0.0.2";
       timestamp := 1722556799999 |};
    {| media_id := "64d2f0c1a5b3e47f9c0d1e2a"; viewed_by_ip := "10.0.0.1";
       timestamp := 1722556800000 |} ].

Definition stW : State :=
  {| db := {| mediaassets := [assetW]; mediaviewlogs := logsW |}; hits := ∅ |}.

(** The same asset before anybody looked at it. *)
Definition stW0 : State :=
  {| db := {| mediaassets := [assetW]; mediaviewlogs := [] |}; hits := ∅ |}.

(** 2024-08-02T12:00:00.500Z, from 10.0.0.3, the store answering. *)
Definition envW : Env :=
  {| now := 1722600000500; ip := "10.0.0.3"; new_id := "64d2f0c1a5b3e47f9c0d1e2b";
     faults := no_faults |}.

(** The same request with the append rejecting. *)
Definition envW_save_rejects : Env :=
  {| now := 1722600000500; ip := "10.0.0.3"; new_id := "64d2f0c1a5b3e47f9c0d1e2b";
     faults := {| findById_rejects := false; save_rejects := true; find_rejects := false |} |}.

(** The token [routes/auth.js] signs at login, [jwt.sign({ id, email },
    JWT_SECRET, { expiresIn: '1h' })], for a session opened at
    2024-08-02T11:30:00Z, and the claims it carries. *)
Definition sessionW : string :=
  try_catch
    (@jwt_sign binary_codec (<["email" := JStr "a@b.c"]> {["id" := JStr "u1"]})
       "session-secret" expiresIn_1h 1722598200000)
    "".

Definition userW : gmap string JsVal :=
  <["exp" := JNum 1722601800]> (<["iat" := JNum 1722598200]>
    (<["email" := JStr "a@b.c"]> {["id" := JStr "u1"]})).

Definition bearerW : option string := Some ("Bearer " +:+ sessionW).

(** The request path is upper case, the stored id lower case. *)
Definition idW : string := "64D2F0C1A5B3E47F9C0D1E2A".

(** The distinct addresses and the distinct days of [logsW]: 2024-08-01 is
    day 19936. *)
Definition ipsW : list string := ["10.0.0.1"; "10.0.0.2"].
Definition daysW : list Z := [19936; 19937]%Z.

(** A view logged at [envW], and the state it leaves. *)
Definition viewW : MediaViewLog :=
  {| media_id := "64d2f0c1a5b3e47f9c0d1e2a"; viewed_by_ip := "10.0.0.3";
     timestamp := 1722600000500 |}.

Definition stW_viewed : State :=
  {| db := {| mediaassets := [assetW]; mediaviewlogs := logsW ++ [viewW] |};
     hits := {["10.0.0.3" := (1, 1722600060500%Z)]} |}.

(** The stream token issued at [envW] for [assetW]. *)
Definition streamClaimsW : gmap string JsVal :=
  <["exp" := JNum 1722600600]> (<["iat" := JNum 1722600000]>
    (<["fileUrl" := JStr "http://example.com/video.mp4"]>
       {["mediaId" := JStr "64d2f0c1a5b3e47f9c0d1e2a"]})).

Definition streamTokenW : string :=
  @compact binary_codec
    {| jws_payload := streamClaimsW;
       jws_signature := @hs256 binary_codec "stream-secret" streamClaimsW |}.

Definition streamUrlW : string := "http://localhost:3000/stream/" +:+ streamTokenW.

Definition stW_linked : State :=
  {| db := {| mediaassets := [assetW]; mediaviewlogs := logsW ++ [viewW] |}; hits := ∅ |}.

(** Half a minute later, another caller. *)
Definition envW_later : Env :=
  {| now := 1722600030000; ip := "10.0.0.9"; new_id := "64d2f0c1a5b3e47f9c0d1e2c";
     faults := no_faults |}.

(** Half a minute later, the caller of [envW] again. *)
Definition envW_again : Env :=
  {| now := 1722600030000; ip := "10.0.0.3"; new_id := "64d2f0c1a5b3e47f9c0d1e2d";
     faults := no_faults |}.

(** The last millisecond of the link, and the instant it expires. *)
Definition envW_last : Env :=
  {| now := 1722600599999; ip := "10.0.0.9"; new_id := ""; faults := no_faults |}.
Definition envW_expired : Env :=
  {| now := 1722600600000; ip := "10.0.0.9"; new_id := ""; faults := no_faults |}.

(** From the empty store: the asset is registered, then linked once. *)
Definition stW_reached : State :=
  (@run binary_codec hex24 address_key cfgW initial
     [ (envW, POST_media bearerW (Some (Some "Test Video", Some "video",
                Some "http://example.com/video.mp4")));
       (envW_later, GET_stream_url "64d2f0c1a5b3e47f9c0d1e2b") ]).2.

(** ** [routes/auth.js]: signup and login *)

(** bcryptjs: [bcrypt.hash(password, rounds)] draws a salt and hashes the
    password with it; [bcrypt.compare(password, hash)] accepts the password
    a hash was made from. *)
Class Bcrypt : Type := {
  bcrypt_hash : string -> nat -> string -> string;
  bcrypt_compare : string -> string -> bool;
  compare_hash : forall password rounds salt,
    bcrypt_compare password (bcrypt_hash password rounds salt) = true
}.

Module Auth.

(** Modelled from the spec: [models/AdminUser.js] is not among the sources.
    A credential record is [{_id, email, hashed_password}], the fields the
    two routes write and read. *)
Record AdminUser : Type := {
  _id : string;
  email : string;
  hashed_password : string
}.

(** What a handler passes to [res.json]. *)
Inductive Body : Type :=
  | Json_message (message : string)
  | Json_user (id : string) (email : string)
  | Json_token (token : string).

Record Response : Type := { status : nat; body : Body }.

Definition reply (status : nat) (body : Body) : Response :=
  {| status := status; body := body |}.

(** What one request brings besides its body: the clock reading, the salt
    bcrypt draws, the [_id] mongoose would give a new document, and the store
    operations that reject. *)
Record Env : Type := {
  now : Z;
  salt : string;
  new_id : string;
  findOne_rejects : bool;
  save_rejects : bool
}.

(** [AdminUser.findOne({ email })]. *)
Definition AdminUser_findOne (e : Env) (users : list AdminUser) (email' : string)
    : Completion (option AdminUser) :=
  if findOne_rejects e then Throw
  else Normal (List.find (fun u => bool_decide (email u = email')) users).

(** [user.save()] on a new document. *)
Definition AdminUser_save (e : Env) (users : list AdminUser) (doc : AdminUser)
    : Completion (list AdminUser) :=
  if save_rejects e then Throw else Normal (users ++ [doc])%list.

Section Routes.
Context `{JwtCodec} `{Bcrypt}.

(** [process.env.JWT_SECRET] as read when the router is loaded. *)
Variable JWT_SECRET : string.

(** [POST /auth/signup] up to the point where it has looked the email up.
    [body] is [req.body], [None] when no body was parsed: the destructuring
    [const { email, password } = req.body] stands before the [try] and
    throws on [undefined].  The result is the reply the handler has sent
    already, or the document it goes on to hash the password for and save. *)
Definition signup_lookup (e : Env) (users : list AdminUser)
    (body : option (option string * option string))
    : Completion (Response + AdminUser) :=
  match body with
  | None => Throw
  | Some (email, password) =>
      mret
        (if falsy email || falsy password then
           inl (reply 400 (Json_message "Email and password required"))
         else
           try_catch
             (exists_ ← AdminUser_findOne e users (default "" email);
              match exists_ with
              | Some _ => mret (inl (reply 409 (Json_message "User already exists")))
              | None =>
                  let hashed_password := bcrypt_hash (default "" password) 10 (salt e) in
                  mret (inr {| _id := new_id e; email := default "" email;
                               hashed_password := hashed_password |})
              end)
             (inl (reply 500 (Json_message "Server error"))))
  end.

(** The rest of the handler: [await user.save()] against the records as they
    are by then, and the reply. *)
Definition signup_save (e : Env) (users : list AdminUser) (user : AdminUser)
    : Response * list AdminUser :=
  try_catch
    (users' ← AdminUser_save e users user;
     mret (reply 201 (Json_user (_id user) (Auth.email user)), users'))
    (reply 500 (Json_message "Server error"), users).

(** [POST /auth/signup] with no other request's save between its lookup and
    its own save. *)
Definition signup (e : Env) (users : list AdminUser)
    (body : option (option string * option string))
    : Completion (Response * list AdminUser) :=
  found ← signup_lookup e users body;
  match found with
  | inl r => mret (r, users)
  | inr user => mret (signup_save e users user)
  end.

(** [POST /auth/login]; it reads the records once and writes nothing. *)
Definition login (e : Env) (users : list AdminUser)
    (body : option (option string * option string)) : Completion Response :=
  match body with
  | None => Throw
  | Some (email, password) =>
      mret
        (if falsy email || falsy password then
           reply 400 (Json_message "Email and password required")
         else
           try_catch
             (user ← AdminUser_findOne e users (default "" email);
              match user with
              | None => mret (reply 401 (Json_message "Invalid credentials"))
              | Some user =>
                  if negb (bcrypt_compare (default "" password) (hashed_password user)) then
                    mret (reply 401 (Json_message "Invalid credentials"))
                  else
                    token ← jwt_sign
                      (<["email" := JStr (Auth.email user)]> {["id" := JStr (_id user)]})
                      JWT_SECRET expiresIn_1h (now e);
                    mret (reply 200 (Json_token token))
              end)
             (reply 500 (Json_message "Server error")))
  end.

(** The two routes of the router over the credential records. *)
Inductive Request : Type :=
  | POST_signup (body : option (option string * option string))
  | POST_login (body : option (option string * option string)).

(** *** Requests that overlap

    A handler runs from one [await] to the next without interruption, and
    other requests run in between.  The signup handler reads the records at
    its lookup and writes them at its save, so a signup that has passed its
    lookup is in flight until it saves. *)

Record Server : Type := {
  users : list AdminUser;
  in_flight : list (Env * AdminUser)
}.

(** A request arrives and runs to its reply or, for a signup whose email was
    free at the lookup, to the point where it is in flight; or the [n]-th
    signup in flight saves and replies. *)
Inductive Event : Type :=
  | Arrives (e : Env) (req : Request)
  | Saves (n : nat).

(** The reply an event sends, if it sends one ([Throw]: the handler's
    promise rejects), and the server it leaves. *)
Definition step (s : Server) (ev : Event) : option (Completion Response) * Server :=
  match ev with
  | Arrives e (POST_login body) => (Some (login e (users s) body), s)
  | Arrives e (POST_signup body) =>
      match signup_lookup e (users s) body with
      | Throw => (Some Throw, s)
      | Normal (inl r) => (Some (Normal r), s)
      | Normal (inr user) =>
          (None, {| users := users s; in_flight := in_flight s ++ [(e, user)] |})
      end
  | Saves n =>
      match in_flight s !! n with
      | None => (None, s)
      | Some (e, user) =>
          let '(r, users') := signup_save e (users s) user in
          (Some (Normal r), {| users := users'; in_flight := delete n (in_flight s) |})
      end
  end.

Fixpoint run (s : Server) (evs : list Event)
    : list (option (Completion Response)) * Server :=
  match evs with
  | [] => ([], s)
  | ev :: rest =>
      let '(o, s') := step s ev in
      let '(os, s'') := run s' rest in
      (o :: os, s'')
  end.

(** Requests handled one at a time: each arrives and, when it is a signup in
    flight, saves before the next arrives. *)
Definition one_at_a_time (reqs : list (Env * Request)) : list Event :=
  flat_map (fun '(e, req) => [Arrives e req; Saves 0]) reqs.

End Routes.

End Auth.

(** A hash from which rounds, salt and password are read back: the digits of
    the number stdpp's [Countable] assigns to the three. *)
Definition readable_hash : Bcrypt.
Proof.
  refine {|
    bcrypt_hash := fun password rounds salt => pos_to_bits (encode (rounds, salt, password));
    bcrypt_compare := fun password h =>
      match bits_to_pos h with
      | None => false
      | Some p =>
          match decode p : option (nat * string * string) with
          | None => false
          | Some (_, _, password') => bool_decide (password' = password)
          end
      end
  |}.
  abstract (intros password rounds salt;
    assert (Hbits : forall p, bits_to_pos (pos_to_bits p) = Some p)
      by (induction p as [q IH|q IH|]; simpl; [| |reflexivity];
          rewrite IH; destruct q; reflexivity);
    rewrite Hbits, decode_encode; apply bool_decide_eq_true; reflexivity).
Defined.

(** ** Requests and outcomes that write *)

(** The id under which a request would log a view: the two routes that
    append rows. *)
Definition view_target (req : Request) : option string :=
  match req with
  | POST_view _ id => Some id
  | GET_stream_url id => Some id
  | _ => None
  end.

(** A view answered 201 and a link answered 200. *)
Definition logged (req : Request) (o : Completion Response) : bool :=
  match req, o with
  | POST_view _ _, Normal r => bool_decide (status r = 201)
  | GET_stream_url _, Normal r => bool_decide (status r = 200)
  | _, _ => false
  end.

(** An asset registration answered 201. *)
Definition registered (req : Request) (o : Completion Response) : bool :=
  match req, o with
  | POST_media _ _, Normal r => bool_decide (status r = 201)
  | _, _ => false
  end.

(** How many requests of a sequence, paired with their outcomes, satisfy [p]. *)
Definition count_outcomes (p : Request -> Completion Response -> bool)
    (reqs : list (Env * Request)) (os : list (Completion Response)) : nat :=
  length (List.filter (fun ro => p ro.1 ro.2) (zip (snd <$> reqs) os)).

(** * The run, continued: a second asset, the credentials, the far future *)

Definition cfgW_no_stream_secret : Config :=
  {| STREAM_TOKEN_SECRET := ""; jwtSecret := "session-secret"; PORT := "3000" |}.

Definition cfgW_one_secret : Config :=
  {| STREAM_TOKEN_SECRET := "session-secret"; jwtSecret := "session-secret"; PORT := "3000" |}.

Definition audioW : MediaAsset :=
  {| _id := "64d2f0c1a5b3e47f9c0d1e2f"; title := "Test Audio"; type := "audio";
     file_url := "http://example.com/audio.mp3" |}.

Definition stW_two : State :=
  {| db := {| mediaassets := [assetW; audioW]; mediaviewlogs := logsW |}; hits := ∅ |}.

(** The asset [POST /media] registers at [envW]. *)
Definition registeredW : MediaAsset :=
  {| _id := "64d2f0c1a5b3e47f9c0d1e2b"; title := "Test Video"; type := "video";
     file_url := "http://example.com/video.mp4" |}.


(** Two clients of the network 2001:db8::/56, half a minute apart. *)
Definition envW_v6 : Env :=
  {| now := 1722600000500; ip := "2001:db8::1"; new_id := "64d2f0c1a5b3e47f9c0d1e30";
     faults := no_faults |}.

Definition envW_v6_neighbour : Env :=
  {| now := 1722600030000; ip := "2001:db8::2"; new_id := "64d2f0c1a5b3e47f9c0d1e31";
     faults := no_faults |}.

(** [envW] with the asset lookup rejecting. *)
Definition envW_lookup_rejects : Env :=
  {| now := 1722600000500; ip := "10.0.0.3"; new_id := "64d2f0c1a5b3e47f9c0d1e2b";
     faults := {| findById_rejects := true; save_rejects := false; find_rejects := false |} |}.

(** Signup at 2024-08-02T11:29:00Z, login at 11:30:00Z, the instant
    [sessionW] is signed at, and a second signup later. *)
Definition signupEnvW : Auth.Env :=
  {| Auth.now := 1722598140000; Auth.salt := "c2FsdA"; Auth.new_id := "u1";
     Auth.findOne_rejects := false; Auth.save_rejects := false |}.

Definition loginEnvW : Auth.Env :=
  {| Auth.now := 1722598200000; Auth.salt := "c2FsdB"; Auth.new_id := "u2";
     Auth.findOne_rejects := false; Auth.save_rejects := false |}.

Definition signupEnvW_again : Auth.Env :=
  {| Auth.now := 1722598260000; Auth.salt := "c2FsdC"; Auth.new_id := "u3";
     Auth.findOne_rejects := false; Auth.save_rejects := false |}.

Definition adminW : Auth.AdminUser :=
  {| Auth._id := "u1"; Auth.email := "a@b.c";
     Auth.hashed_password := @bcrypt_hash readable_hash "s3cret" 10 "c2FsdA" |}.

(** +010000-01-01T00:00:00.000Z and the same time a day later. *)
Definition farW : MediaViewLog :=
  {| media_id := "64d2f0c1a5b3e47f9c0d1e2a"; viewed_by_ip := "10.0.0.1";
     timestamp := 253402300800000 |}.

Definition farW_next_day : MediaViewLog :=
  {| media_id := "64d2f0c1a5b3e47f9c0d1e2a"; viewed_by_ip := "10.0.0.1";
     timestamp := 253402387200000 |}.

(** * Proofs *)

Arguments day_key : simpl never.
Arguments toISOString : simpl never.
Arguments YYYY_MM_DD : simpl never.
Arguments Day : simpl never.

(** ** The calendar: dates and day numbers determine each other *)

Section Calendar.
Local Open Scope Z_scope.

Ltac zdiv := Z.div_mod_to_equations; lia.

Lemma yearOfEra_bounds doe :
  0 <= doe < 146097 -> 0 <= yearOfEra doe <= 399 /\ 0 <= dayOfYear doe <= 365.
Proof. intros Hdoe. unfold dayOfYear, yearOfEra. split; zdiv. Qed.

Lemma month_day_bounds doy :
  0 <= doy <= 365 -> 1 <= monthOf (monthIndex doy) <= 12 /\ 1 <= dayOfMonth doy <= 31.
Proof.
  intros Hdoy. unfold dayOfMonth, monthOf, monthIndex.
  destruct (Z.ltb_spec ((5 * doy + 2) / 153) 10); split; zdiv.
Qed.

Lemma month_day_inverse doy :
  0 <= doy <= 365 ->
  let m := monthOf (monthIndex doy) in
  (153 * (if 2 <? m then m - 3 else m + 9) + 2) / 5 + dayOfMonth doy - 1 = doy.
Proof.
  intros Hdoy m. subst m. unfold dayOfMonth, monthOf, monthIndex.
  destruct (Z.ltb_spec ((5 * doy + 2) / 153) 10) as [Hlt|Hge].
  - destruct (Z.ltb_spec 2 ((5 * doy + 2) / 153 + 3)); [|zdiv].
    replace ((5 * doy + 2) / 153 + 3 - 3) with ((5 * doy + 2) / 153) by lia. lia.
  - destruct (Z.ltb_spec 2 ((5 * doy + 2) / 153 - 9)); [zdiv|].
    replace ((5 * doy + 2) / 153 - 9 + 9) with ((5 * doy + 2) / 153) by lia. lia.
Qed.

(** [daysFromCivil] undoes [civil], on every day number. *)
Lemma civil_inverse z : let '(y, m, d) := civil z in daysFromCivil y m d = z.
Proof.
  unfold civil.
  set (era := (z + 719468) / 146097).
  set (doe := (z + 719468) mod 146097).
  assert (Hdoe : 0 <= doe < 146097) by (apply Z.mod_pos_bound; lia).
  assert (Hz : z + 719468 = 146097 * era + doe) by (apply Z.div_mod; lia).
  destruct (yearOfEra_bounds doe Hdoe) as [Hy Hd].
  pose proof (month_day_inverse _ Hd) as Hinv. cbv zeta in Hinv.
  set (m := monthOf (monthIndex (dayOfYear doe))) in *.
  unfold daysFromCivil.
  assert (Hy' : (if m <=? 2
                 then (if m <=? 2 then yearOfEra doe + era * 400 + 1
                       else yearOfEra doe + era * 400) - 1
                 else (if m <=? 2 then yearOfEra doe + era * 400 + 1
                       else yearOfEra doe + era * 400)) = yearOfEra doe + era * 400)
    by (destruct (m <=? 2); lia).
  rewrite Hy', Hinv.
  assert (He : (yearOfEra doe + era * 400) / 400 = era) by zdiv.
  assert (Hm : (yearOfEra doe + era * 400) mod 400 = yearOfEra doe) by zdiv.
  rewrite He, Hm. unfold dayOfYear in *. lia.
Qed.

Lemma civil_inj z1 z2 : civil z1 = civil z2 -> z1 = z2.
Proof.
  intros Heq. pose proof (civil_inverse z1) as H1. pose proof (civil_inverse z2) as H2.
  rewrite Heq in H1. destruct (civil z2) as [[y m] d]. congruence.
Qed.

(** From 0000-01-01 to 9999-12-31 the year has four digits. *)
Lemma civil_range z :
  -719528 <= z <= 2932896 ->
  let '(y, m, d) := civil z in 0 <= y <= 9999 /\ 1 <= m <= 12 /\ 1 <= d <= 31.
Proof.
  intros Hr. unfold civil.
  set (era := (z + 719468) / 146097).
  set (doe := (z + 719468) mod 146097).
  assert (Hdoe : 0 <= doe < 146097) by (apply Z.mod_pos_bound; lia).
  assert (Hz : z + 719468 = 146097 * era + doe) by (apply Z.div_mod; lia).
  destruct (yearOfEra_bounds doe Hdoe) as [Hy Hd].
  destruct (month_day_bounds _ Hd) as [Hm Hday].
  pose proof (month_day_inverse _ Hd) as Hinv. cbv zeta in Hinv.
  set (m := monthOf (monthIndex (dayOfYear doe))) in *.
  split; [|split; assumption].
  unfold dayOfYear in *.
  destruct (Z.leb_spec m 2) as [Hle|Hgt].
  - destruct (Z.ltb_spec 2 m); [lia|]. zdiv.
  - destruct (Z.ltb_spec 2 m); [|lia]. zdiv.
Qed.

(** The date [civil] computes is the one ECMA-262 defines: the year is the
    one whose first day is the last not after the day, and month and date
    follow the table of month lengths. *)
Lemma dayOfYear_length doe :
  0 <= doe < 146097 ->
  dayOfYear doe < 365 + (if InLeapYear (yearOfEra doe + 1) then 1 else 0).
Proof.
  intros Hdoe. unfold InLeapYear.
  destruct (yearOfEra_bounds doe Hdoe) as [Hy Hd].
  unfold dayOfYear in *. set (yoe := yearOfEra doe) in *.
  assert (Hnext : doe < 365 * (yoe + 1) + (yoe + 1) / 4 - (yoe + 1) / 100 \/ yoe = 399)
    by (unfold yoe, yearOfEra; zdiv).
  destruct (Z.eqb_spec ((yoe + 1) mod 4) 0), (Z.eqb_spec ((yoe + 1) mod 100) 0),
    (Z.eqb_spec ((yoe + 1) mod 400) 0); cbn [andb orb negb]; zdiv.
Qed.

Lemma civil_year z :
  let '(y, m, d) := civil z in DayFromYear y <= z < DayFromYear (y + 1).
Proof.
  unfold civil.
  set (era := (z + 719468) / 146097).
  set (doe := (z + 719468) mod 146097).
  assert (Hdoe : 0 <= doe < 146097) by (apply Z.mod_pos_bound; lia).
  assert (Hz : z + 719468 = 146097 * era + doe) by (apply Z.div_mod; lia).
  destruct (yearOfEra_bounds doe Hdoe) as [Hy Hd].
  pose proof (dayOfYear_length doe Hdoe) as Hlen.
  unfold monthOf, monthIndex, DayFromYear, InLeapYear in *. unfold dayOfYear in *.
  set (yoe := yearOfEra doe) in *.
  destruct (Z.ltb_spec ((5 * (doe - (365 * yoe + yoe / 4 - yoe / 100)) + 2) / 153) 10).
  - destruct (Z.leb_spec
      ((5 * (doe - (365 * yoe + yoe / 4 - yoe / 100)) + 2) / 153 + 3) 2); [zdiv|].
    destruct (Z.eqb_spec ((yoe + 1) mod 4) 0), (Z.eqb_spec ((yoe + 1) mod 100) 0),
      (Z.eqb_spec ((yoe + 1) mod 400) 0); cbn [andb orb negb] in Hlen; zdiv.
  - destruct (Z.leb_spec
      ((5 * (doe - (365 * yoe + yoe / 4 - yoe / 100)) + 2) / 153 - 9) 2); [|zdiv].
    destruct (Z.eqb_spec ((yoe + 1) mod 4) 0), (Z.eqb_spec ((yoe + 1) mod 100) 0),
      (Z.eqb_spec ((yoe + 1) mod 400) 0); cbn [andb orb negb] in Hlen; zdiv.
Qed.

Lemma dayWithinYear_of_dayOfYear z :
  let era := (z + 719468) / 146097 in
  let doe := (z + 719468) mod 146097 in
  let yoe := yearOfEra doe in
  let doy := dayOfYear doe in
  (doy < 306 ->
     z - DayFromYear (yoe + era * 400) =
       doy + 59 + (if InLeapYear (yoe + era * 400) then 1 else 0)) /\
  (306 <= doy -> z - DayFromYear (yoe + era * 400 + 1) = doy - 306).
Proof.
  cbv zeta.
  set (era := (z + 719468) / 146097).
  set (doe := (z + 719468) mod 146097).
  assert (Hdoe : 0 <= doe < 146097) by (apply Z.mod_pos_bound; lia).
  assert (Hz : z + 719468 = 146097 * era + doe) by (apply Z.div_mod; lia).
  destruct (yearOfEra_bounds doe Hdoe) as [Hy Hd].
  unfold DayFromYear, InLeapYear. unfold dayOfYear in *.
  set (yoe := yearOfEra doe) in *.
  split; intros Hdoy; [|zdiv].
  destruct (Z.eqb_spec ((yoe + era * 400) mod 4) 0),
    (Z.eqb_spec ((yoe + era * 400) mod 100) 0),
    (Z.eqb_spec ((yoe + era * 400) mod 400) 0); cbn [andb orb negb]; zdiv.
Qed.

Lemma month_date_table doy leap :
  0 <= doy <= 365 -> 0 <= leap <= 1 ->
  (doy < 306 ->
     (monthOf (monthIndex doy), dayOfMonth doy) = MonthDate (doy + 59 + leap) leap) /\
  (306 <= doy -> doy < 365 + leap ->
     (monthOf (monthIndex doy), dayOfMonth doy) = MonthDate (doy - 306) leap).
Proof.
  intros Hdoy Hleap. unfold MonthDate, monthOf, dayOfMonth, monthIndex.
  split; [intros H306|intros H306 Hlen];
    repeat match goal with
    | |- context [?a <? ?b] => destruct (Z.ltb_spec a b)
    end; try (f_equal; zdiv); zdiv.
Qed.

Lemma InLeapYear_era yoe era : InLeapYear (yoe + era * 400 + 1) = InLeapYear (yoe + 1).
Proof.
  unfold InLeapYear.
  replace ((yoe + era * 400 + 1) mod 4) with ((yoe + 1) mod 4) by zdiv.
  replace ((yoe + era * 400 + 1) mod 100) with ((yoe + 1) mod 100) by zdiv.
  replace ((yoe + era * 400 + 1) mod 400) with ((yoe + 1) mod 400) by zdiv.
  reflexivity.
Qed.

Lemma civil_ecma z :
  let '(y, m, d) := civil z in
  DayFromYear y <= z < DayFromYear (y + 1) /\
  (m, d) = MonthDate (z - DayFromYear y) (if InLeapYear y then 1 else 0).
Proof.
  pose proof (civil_year z) as Hyear.
  pose proof (dayWithinYear_of_dayOfYear z) as Hdwy.
  unfold civil in *. cbv zeta in Hdwy.
  set (era := (z + 719468) / 146097) in *.
  set (doe := (z + 719468) mod 146097) in *.
  assert (Hdoe : 0 <= doe < 146097) by (apply Z.mod_pos_bound; lia).
  destruct (yearOfEra_bounds doe Hdoe) as [Hy Hd].
  pose proof (dayOfYear_length doe Hdoe) as Hlen.
  set (yoe := yearOfEra doe) in *. set (doy := dayOfYear doe) in *.
  split; [exact Hyear|]. clear Hyear. destruct Hdwy as [Hlt Hge].
  assert (Hm : monthOf (monthIndex doy) <= 2 <-> 306 <= doy).
  { unfold monthOf, monthIndex. destruct (Z.ltb_spec ((5 * doy + 2) / 153) 10); zdiv. }
  assert (Hleap : forall y, 0 <= (if InLeapYear y then 1 else 0) <= 1)
    by (intros y; destruct (InLeapYear y); lia).
  destruct (Z.leb_spec (monthOf (monthIndex doy)) 2) as [Hle|Hgt].
  - apply Hm in Hle. rewrite (Hge Hle), InLeapYear_era.
    destruct (month_date_table doy _ Hd (Hleap (yoe + 1))) as [_ Htable].
    apply Htable; [exact Hle|exact Hlen].
  - assert (Hmar : doy < 306)
      by (destruct (Z.le_gt_cases 306 doy) as [Hge'|]; [apply Hm in Hge'; lia|lia]).
    rewrite (Hlt Hmar).
    destruct (month_date_table doy _ Hd (Hleap (yoe + era * 400))) as [Htable _].
    apply Htable; exact Hmar.
Qed.

Lemma fourDigitYear_Day t : fourDigitYear t -> -719528 <= Day t <= 2932896.
Proof. unfold fourDigitYear, Day, msPerDay. intros Ht. zdiv. Qed.

Lemma digit_inj a b : digit a = digit b -> a mod 10 = b mod 10.
Proof.
  unfold digit. intros Heq. apply (f_equal nat_of_ascii) in Heq.
  assert (Ha : 0 <= a mod 10 < 10) by (apply Z.mod_pos_bound; lia).
  assert (Hb : 0 <= b mod 10 < 10) by (apply Z.mod_pos_bound; lia).
  rewrite !nat_ascii_embedding in Heq by lia. lia.
Qed.

Lemma pad2_inj a b : 0 <= a <= 99 -> 0 <= b <= 99 -> pad2 a = pad2 b -> a = b.
Proof.
  intros Ha Hb Heq. unfold pad2 in Heq.
  injection Heq as H1 H0. apply digit_inj in H1, H0. zdiv.
Qed.

Lemma pad4_inj a b : 0 <= a <= 9999 -> 0 <= b <= 9999 -> pad4 a = pad4 b -> a = b.
Proof.
  intros Ha Hb Heq. unfold pad4, pad3, pad2 in Heq.
  injection Heq as H3 H2 H1 H0. apply digit_inj in H3, H2, H1, H0. zdiv.
Qed.

(** Within the four-digit years the first ten characters of the ISO string
    are the [YYYY-MM-DD] date of the day. *)
Lemma toISOString_slice t :
  fourDigitYear t -> slice0 10 (toISOString t) = YYYY_MM_DD (Day t).
Proof.
  intros Ht. apply fourDigitYear_Day in Ht. apply civil_range in Ht.
  unfold toISOString, YYYY_MM_DD. destruct (civil (Day t)) as [[y m] d].
  destruct Ht as (Hy & _ & _). unfold yearString.
  replace ((0 <=? y) && (y <=? 9999))%bool with true
    by (symmetry; apply andb_true_iff; split; apply Z.leb_le; lia).
  reflexivity.
Qed.

Lemma YYYY_MM_DD_inj d1 d2 :
  -719528 <= d1 <= 2932896 -> -719528 <= d2 <= 2932896 ->
  YYYY_MM_DD d1 = YYYY_MM_DD d2 -> d1 = d2.
Proof.
  intros H1 H2 Heq. apply civil_inj.
  apply civil_range in H1, H2. unfold YYYY_MM_DD in Heq.
  destruct (civil d1) as [[y1 m1] dd1], (civil d2) as [[y2 m2] dd2].
  destruct H1 as (Hy1 & Hm1 & Hd1), H2 as (Hy2 & Hm2 & Hd2).
  assert (Hy : pad4 y1 = pad4 y2 /\ pad2 m1 = pad2 m2 /\ pad2 dd1 = pad2 dd2).
  { unfold pad4, pad3, pad2 in *. simpl in Heq.
    injection Heq as -> -> -> -> -> -> -> ->. auto. }
  destruct Hy as (Hy & Hm & Hd).
  apply pad4_inj in Hy; [|lia..]. apply pad2_inj in Hm; [|lia..].
  apply pad2_inj in Hd; [|lia..]. congruence.
Qed.

End Calendar.

(** ** The aggregation pass *)

Section Aggregation.

Lemma count_day_lookup m l k :
  count_day m l !! k =
    if decide (day_key l = k) then Some (default 0 (m !! k) + 1) else m !! k.
Proof.
  unfold count_day. destruct (decide (day_key l = k)) as [<-|Hne].
  - by rewrite lookup_insert_eq.
  - by rewrite lookup_insert_ne.
Qed.

(** After the loop a key holds the number of rows under it, and keys under
    which no row falls are as they were. *)
Lemma foldl_count_day_lookup logs : forall m k,
  foldl count_day m logs !! k =
    if decide (rows_on k logs = 0) then m !! k
    else Some (default 0 (m !! k) + rows_on k logs).
Proof.
  unfold rows_on.
  induction logs as [|l logs IH]; intros m k; cbn [foldl List.filter]; [done|].
  rewrite IH, !count_day_lookup.
  destruct (bool_decide_reflect (day_key l = k)) as [Heq|Hne]; cbn [length].
  - destruct (decide (day_key l = k)) as [_|?]; [|done].
    rewrite (decide_False (P := S _ = 0)) by lia.
    case_decide as Hlen; [f_equal; lia|].
    change (default 0 (Some (default 0 (m !! k) + 1))) with (default 0 (m !! k) + 1).
    f_equal; lia.
  - destruct (decide (day_key l = k)) as [?|_]; done.
Qed.

Lemma views_per_day_lookup logs k :
  views_per_day (summarize logs) !! k =
    if decide (rows_on k logs = 0) then None else Some (rows_on k logs).
Proof.
  simpl. rewrite foldl_count_day_lookup, lookup_empty. by destruct (decide _).
Qed.

Lemma rows_on_pos k logs : rows_on k logs ≠ 0 <-> exists l, l ∈ logs /\ day_key l = k.
Proof.
  unfold rows_on. induction logs as [|l logs IH]; cbn [List.filter].
  - split; [done|]. intros (l & Hl & _). by apply not_elem_of_nil in Hl.
  - destruct (bool_decide_reflect (day_key l = k)) as [Heq|Hne]; cbn [length].
    + split; [|done]. intros _. exists l. split; [left|done].
    + rewrite IH. split.
      * intros (l' & Hl' & Hk). exists l'. split; [by right|done].
      * intros (l' & Hl' & Hk). apply elem_of_cons in Hl' as [->|Hl']; [done|eauto].
Qed.

Lemma views_per_day_dom logs :
  dom (views_per_day (summarize logs)) = list_to_set (day_key <$> logs).
Proof.
  apply set_eq. intros k. rewrite elem_of_dom, views_per_day_lookup, elem_of_list_to_set.
  rewrite list_elem_of_fmap. destruct (decide (rows_on k logs = 0)) as [Hz|Hnz].
  - split; [by intros [? [=]]|]. intros (l & -> & Hl).
    exfalso. apply (proj2 (rows_on_pos (day_key l) logs)); eauto.
  - split; [|eauto]. intros _. apply rows_on_pos in Hnz as (l & Hl & <-). eauto.
Qed.

Lemma sum_values_insert m k n :
  m !! k = None -> sum_values (<[k := n]> m) = n + sum_values m.
Proof.
  intros Hk. unfold sum_values. rewrite map_fold_insert_L; [done| |done].
  intros; lia.
Qed.

Lemma sum_values_count_day m l : sum_values (count_day m l) = S (sum_values m).
Proof.
  unfold count_day. set (k := day_key l).
  destruct (m !! k) as [n|] eqn:Hk; simpl.
  - rewrite <- (insert_delete_id m k n) at 2 by done.
    rewrite <- insert_delete_eq.
    rewrite !sum_values_insert by apply lookup_delete_eq. lia.
  - rewrite sum_values_insert by done. lia.
Qed.

Lemma sum_values_foldl logs : forall m,
  sum_values (foldl count_day m logs) = sum_values m + length logs.
Proof.
  induction logs as [|l logs IH]; intros m; simpl; [lia|].
  rewrite IH, sum_values_count_day. lia.
Qed.

Lemma sum_values_summarize logs : sum_values (views_per_day (summarize logs)) = length logs.
Proof. simpl. rewrite sum_values_foldl. unfold sum_values. by rewrite map_fold_empty. Qed.

(** The summary looks at the rows as a collection: their order is immaterial. *)
Lemma rows_on_Permutation k logs logs' : logs ≡ₚ logs' -> rows_on k logs = rows_on k logs'.
Proof.
  intros Hp. unfold rows_on. induction Hp; cbn [List.filter]; [done| | |congruence].
  - destruct (bool_decide _); cbn [length]; congruence.
  - destruct (bool_decide (day_key x = k)), (bool_decide (day_key y = k)); done.
Qed.

Lemma summarize_Permutation logs logs' : logs ≡ₚ logs' -> summarize logs = summarize logs'.
Proof.
  intros Hp.
  assert (Hvpd : views_per_day (summarize logs) = views_per_day (summarize logs')).
  { apply map_eq. intros k. rewrite !views_per_day_lookup.
    by rewrite (rows_on_Permutation k _ _ Hp). }
  simpl in Hvpd. unfold summarize. rewrite Hvpd. f_equal.
  - by apply Permutation_length.
  - f_equal. apply set_eq. intros a. rewrite !elem_of_list_to_set. by rewrite Hp.
Qed.

End Aggregation.

(** ** The store queries and the handlers, case by case *)

Section Handlers.
Context `{JwtCodec} `{ObjectIdCast} {limiter_key : KeyGenerator}.
Variable cfg : Config.

Lemma findById_Some f d id media :
  MediaAsset_findById f d id = Normal (Some media) ->
  findById_rejects f = false /\ castObjectId id = Some (_id media) /\
  isValid id = true /\ media ∈ mediaassets d.
Proof.
  unfold MediaAsset_findById, isValid. intros Hfind.
  destruct (findById_rejects f); [done|].
  destruct (castObjectId id) as [oid|]; [|done].
  injection Hfind as Hfind. apply find_some in Hfind as [Hin Hid].
  apply bool_decide_eq_true in Hid as <-.
  split_and!; try done. by apply list_elem_of_In.
Qed.

Lemma find_logs f d id oid :
  find_rejects f = false -> castObjectId id = Some oid ->
  MediaViewLog_find f d id = Normal (logs_of oid d).
Proof. unfold MediaViewLog_find. by intros -> ->. Qed.

Lemma find_logs_inv f d id logs :
  MediaViewLog_find f d id = Normal logs ->
  exists oid, find_rejects f = false /\ castObjectId id = Some oid /\ logs = logs_of oid d.
Proof.
  unfold MediaViewLog_find. destruct (find_rejects f); [done|].
  destruct (castObjectId id) as [oid|]; [|done]. intros [= <-]. eauto.
Qed.

(** The analytics handler on an asset that is there, with a store that
    answers: the summary of that asset's rows. *)
Lemma get_analytics_found e d id media :
  MediaAsset_findById (faults e) d id = Normal (Some media) ->
  find_rejects (faults e) = false ->
  get_analytics e d id = Normal (reply 200 (Json_summary (summarize (logs_of (_id media) d)))).
Proof.
  intros Hfind Hf. unfold get_analytics.
  destruct (findById_Some _ _ _ _ Hfind) as (_ & Hcast & Hvalid & _).
  rewrite Hvalid, Hfind. cbn [negb mbind Completion_bind].
  by rewrite (find_logs _ _ _ _ Hf Hcast).
Qed.

Lemma get_analytics_200 e d id s :
  get_analytics e d id = Normal (reply 200 (Json_summary s)) ->
  exists media, MediaAsset_findById (faults e) d id = Normal (Some media) /\
    find_rejects (faults e) = false /\ s = summarize (logs_of (_id media) d).
Proof.
  unfold get_analytics. destruct (isValid id); cbn [negb]; [|done].
  destruct (MediaAsset_findById (faults e) d id) as [[media|]|] eqn:Hfind;
    cbn [mbind Completion_bind mret Completion_ret]; [|done..].
  destruct (findById_Some _ _ _ _ Hfind) as (_ & Hcast & _ & _).
  destruct (MediaViewLog_find (faults e) d id) as [logs|] eqn:Hlogs;
    cbn [try_catch mbind Completion_bind mret Completion_ret]; [|done].
  intros [= <-]. exists media. apply find_logs_inv in Hlogs as (oid & Hf & Hc & ->).
  split_and!; try done. congruence.
Qed.

(** The analytics route leaves the state as it found it. *)
Lemma handle_analytics st e authorization id o st' :
  handle cfg st e (GET_analytics authorization id) = (o, st') ->
  st' = st /\
  ((exists r, authenticateToken cfg e authorization = inl r /\ o = Normal r) \/
   (exists user, authenticateToken cfg e authorization = inr user /\
      o = get_analytics e (db st) id)).
Proof.
  cbn [handle]. destruct (authenticateToken cfg e authorization) as [r|user];
    intros [= <- <-]; eauto.
Qed.

Lemma handle_analytics_200 st e authorization id s st' :
  handle cfg st e (GET_analytics authorization id) = (Normal (reply 200 (Json_summary s)), st') ->
  st' = st /\ get_analytics e (db st) id = Normal (reply 200 (Json_summary s)).
Proof.
  intros Hh. apply handle_analytics in Hh as [-> [(r & Hauth & Hr)|(user & _ & Hr)]];
    [|done].
  exfalso. injection Hr as <-. unfold authenticateToken in Hauth.
  destruct (falsy _); [done|]. by destruct (jwt_verify _ _ _).
Qed.

End Handlers.

(** ** Analytics: totals, distinct addresses and the per-day counts *)

Section Analytics.
Context `{JwtCodec} `{ObjectIdCast} {limiter_key : KeyGenerator}.
Variable cfg : Config.

Lemma unique_ips_count logs (ips : list string) :
  NoDup ips -> (forall a, a ∈ ips <-> a ∈ viewed_by_ip <$> logs) ->
  unique_ips (summarize logs) = length ips.
Proof.
  intros Hnd Hips. cbn [unique_ips summarize].
  rewrite <- (size_list_to_set (C := gset string) ips) by done.
  f_equal. apply set_eq. intros a. rewrite !elem_of_list_to_set. by rewrite Hips.
Qed.

Lemma Forall_elem {A} (P : A -> Prop) (l : list A) x : Forall P l -> x ∈ l -> P x.
Proof. intros HP Hx. apply list_elem_of_In in Hx. revert x Hx. by apply Forall_forall. Qed.

Lemma day_key_in_range l : fourDigitYear (timestamp l) -> day_key l = YYYY_MM_DD (Day (timestamp l)).
Proof. apply toISOString_slice. Qed.

Lemma day_keys_are_days logs (days : list Z) :
  Forall (fun l => fourDigitYear (timestamp l)) logs ->
  (forall n, n ∈ days <-> n ∈ (fun l => Day (timestamp l)) <$> logs) ->
  (list_to_set (day_key <$> logs) : gset string) = list_to_set (YYYY_MM_DD <$> days).
Proof.
  intros Hrange Hdays. apply set_eq. intros k.
  rewrite !elem_of_list_to_set, !list_elem_of_fmap. split.
  - intros (l & -> & Hl). exists (Day (timestamp l)). split.
    + apply day_key_in_range. by apply (Forall_elem _ _ _ Hrange).
    + apply Hdays. apply list_elem_of_fmap. eauto.
  - intros (n & -> & Hn). apply Hdays, list_elem_of_fmap in Hn as (l & -> & Hl).
    exists l. split; [|done]. symmetry. apply day_key_in_range.
    by apply (Forall_elem _ _ _ Hrange).
Qed.

Lemma days_in_range logs (days : list Z) n :
  Forall (fun l => fourDigitYear (timestamp l)) logs ->
  (forall n, n ∈ days <-> n ∈ (fun l => Day (timestamp l)) <$> logs) ->
  n ∈ days -> (-719528 <= n <= 2932896)%Z.
Proof.
  intros Hrange Hdays Hn. apply Hdays, list_elem_of_fmap in Hn as (l & -> & Hl).
  apply fourDigitYear_Day. by apply (Forall_elem _ _ _ Hrange).
Qed.

Lemma rows_on_day logs n :
  Forall (fun l => fourDigitYear (timestamp l)) logs ->
  (-719528 <= n <= 2932896)%Z ->
  rows_on (YYYY_MM_DD n) logs =
    length (List.filter (fun l => bool_decide (Day (timestamp l) = n)) logs).
Proof.
  intros Hrange Hn. unfold rows_on. f_equal. apply filter_ext_in.
  intros l Hl. apply list_elem_of_In in Hl.
  pose proof (Forall_elem _ _ _ Hrange Hl) as Hl'. cbv beta in Hl'.
  rewrite day_key_in_range by done. apply bool_decide_ext. split; [|by intros ->].
  apply YYYY_MM_DD_inj; [by apply fourDigitYear_Day|done].
Qed.

(** C1.  An authenticated analytics request for an asset that exists, with
    a store that answers, is replied to with status 200 and a summary of the
    rows stored for that asset.  With [N] the number of those rows, [ips] the
    distinct client addresses among them and [days] the distinct UTC days
    their timestamps fall on (timestamps, which are clock readings taken at
    ingestion, from year 0000 to year 9999, where a day has a [YYYY-MM-DD]
    name): [total_views] is [N], [unique_ips] is the
    number of [ips], the keys of [views_per_day] are exactly the [YYYY-MM-DD]
    names of [days], as many as there are [days], every key counts the rows
    of its day (so none counts zero), and the counts add up to [N]. *)
Theorem analytics_counts st e authorization user id media (ips : list string) (days : list Z) :
  let logs := logs_of (_id media) (db st) in
  authenticateToken cfg e authorization = inr user ->
  MediaAsset_findById (faults e) (db st) id = Normal (Some media) ->
  find_rejects (faults e) = false ->
  Forall (fun l => fourDigitYear (timestamp l)) logs ->
  NoDup ips -> (forall a, a ∈ ips <-> a ∈ viewed_by_ip <$> logs) ->
  NoDup days -> (forall n, n ∈ days <-> n ∈ (fun l => Day (timestamp l)) <$> logs) ->
  exists s,
    handle cfg st e (GET_analytics authorization id)
      = (Normal (reply 200 (Json_summary s)), st) /\
    total_views s = length logs /\
    unique_ips s = length ips /\
    dom (views_per_day s) = list_to_set (YYYY_MM_DD <$> days) /\
    size (views_per_day s) = length days /\
    (forall n, n ∈ days ->
       views_per_day s !! YYYY_MM_DD n
         = Some (length (List.filter (fun l => bool_decide (Day (timestamp l) = n)) logs))) /\
    (forall k c, views_per_day s !! k = Some c -> 0 < c) /\
    sum_values (views_per_day s) = length logs.
Proof.
  intros logs Hauth Hfind Hf Hrange Hnd_ips Hips Hnd_days Hdays.
  exists (summarize logs).
  assert (Hdom : dom (views_per_day (summarize logs)) = list_to_set (YYYY_MM_DD <$> days))
    by (rewrite views_per_day_dom; by apply day_keys_are_days).
  split_and!.
  - cbn [handle]. rewrite Hauth. by rewrite (get_analytics_found _ _ _ _ Hfind Hf).
  - done.
  - by apply unique_ips_count.
  - done.
  - rewrite <- size_dom, Hdom. rewrite size_list_to_set; [by rewrite length_fmap|].
    apply NoDup_fmap_2_strong; [|done]. intros n1 n2 Hn1 Hn2.
    apply YYYY_MM_DD_inj; by eapply days_in_range.
  - intros n Hn. pose proof (days_in_range _ _ _ Hrange Hdays Hn) as Hr.
    rewrite views_per_day_lookup, rows_on_day by done.
    apply Hdays, list_elem_of_fmap in Hn as (l & -> & Hl).
    rewrite decide_False; [done|].
    assert (Hin : l ∈ List.filter (fun l0 => bool_decide (Day (timestamp l0) = Day (timestamp l))) logs).
    { apply list_elem_of_In, filter_In. split; [by apply list_elem_of_In|].
      by apply bool_decide_eq_true. }
    intros Hzero. apply length_zero_iff_nil in Hzero. rewrite Hzero in Hin.
    by apply not_elem_of_nil in Hin.
  - intros k c. rewrite views_per_day_lookup. case_decide; [done|]. intros [= <-]. lia.
  - apply sum_values_summarize.
Qed.

(** C8.  An authenticated analytics request for an asset that exists and has
    no stored row, with a store that answers, is replied to with status 200
    and the summary [{total_views: 0, unique_ips: 0, views_per_day: {}}]. *)
Theorem analytics_zero_views st e authorization user id media :
  authenticateToken cfg e authorization = inr user ->
  MediaAsset_findById (faults e) (db st) id = Normal (Some media) ->
  find_rejects (faults e) = false ->
  logs_of (_id media) (db st) = [] ->
  handle cfg st e (GET_analytics authorization id)
    = (Normal (reply 200 (Json_summary
         {| total_views := 0; unique_ips := 0; views_per_day := ∅ |})), st).
Proof.
  intros Hauth Hfind Hf Hlogs. cbn [handle]. rewrite Hauth.
  rewrite (get_analytics_found _ _ _ _ Hfind Hf), Hlogs. done.
Qed.

End Analytics.

(** ** View ingestion and link issuance: what each does to the store *)

Section Ingestion.
Context `{JwtCodec} `{ObjectIdCast} {limiter_key : KeyGenerator}.
Variable cfg : Config.

Lemma authenticateToken_reply e authorization r :
  authenticateToken cfg e authorization = inl r -> status r = 401 \/ status r = 403.
Proof.
  unfold authenticateToken. destruct (falsy _); [intros [= <-]; by left|].
  destruct (jwt_verify _ _ _); [intros [= <-]; by right|done].
Qed.

Lemma falsy_Some_false (v : option string) :
  falsy v = false -> exists s, v = Some s /\ s <> "".
Proof.
  destruct v as [s|]; [|done]. cbn [falsy]. intros Hs%bool_decide_eq_false. eauto.
Qed.

(** [POST /media] after authentication, case by case: no parsed body and
    the handler's promise rejects; a reply 400 or 500 and nothing stored; or
    a reply 201 for three non-empty fields with a type of video or audio,
    and the asset appended. *)
Lemma post_media_cases e d body :
  (body = None /\ post_media e d body = Throw) \/
  (exists r, post_media e d body = Normal (r, d) /\ (status r = 400 \/ status r = 500)) \/
  (exists title type file_url,
     body = Some (Some title, Some type, Some file_url) /\
     title <> "" /\ file_url <> "" /\ (type = "video" \/ type = "audio") /\
     save_rejects (faults e) = false /\
     let media := {| _id := new_id e; title := title; type := type; file_url := file_url |} in
     post_media e d body =
       Normal (reply 201 (Json_media media),
               {| mediaassets := mediaassets d ++ [media]; mediaviewlogs := mediaviewlogs d |})).
Proof.
  destruct body as [[[title type] file_url]|]; [|by left]. right. unfold post_media.
  destruct (falsy title || falsy type || falsy file_url) eqn:Hfalsy; [left; eauto|].
  apply orb_false_iff in Hfalsy as [Hfalsy (u & -> & Hu)%falsy_Some_false].
  apply orb_false_iff in Hfalsy as [(t & -> & Ht)%falsy_Some_false
                                     (ty & -> & Hty)%falsy_Some_false].
  cbn [default id]. case_bool_decide as Htype; cbn [negb]; [|left; eauto].
  unfold MediaAsset_save. destruct (save_rejects (faults e)) eqn:Hsave;
    cbn [try_catch mbind Completion_bind mret Completion_ret]; [left; eauto|].
  right. exists t, ty, u. split_and!; try done.
  rewrite !elem_of_cons, elem_of_nil in Htype. tauto.
Qed.

Lemma handle_media_cases st e authorization body :
  (exists r, handle cfg st e (POST_media authorization body) = (Normal r, st) /\
     (status r = 401 \/ status r = 403 \/ status r = 400 \/ status r = 500)) \/
  (exists user, authenticateToken cfg e authorization = inr user /\ body = None /\
     handle cfg st e (POST_media authorization body) = (Throw, st)) \/
  (exists title type file_url,
     body = Some (Some title, Some type, Some file_url) /\
     title <> "" /\ file_url <> "" /\ (type = "video" \/ type = "audio") /\
     save_rejects (faults e) = false /\
     let media := {| _id := new_id e; title := title; type := type; file_url := file_url |} in
     handle cfg st e (POST_media authorization body) =
       (Normal (reply 201 (Json_media media)),
        {| db := {| mediaassets := mediaassets (db st) ++ [media];
                    mediaviewlogs := mediaviewlogs (db st) |};
           hits := hits st |})).
Proof.
  cbn [handle]. destruct (authenticateToken cfg e authorization) as [r|user] eqn:Hauth.
  { left. exists r. split; [done|].
    destruct (authenticateToken_reply _ _ _ Hauth); auto. }
  destruct (post_media_cases e (db st) body)
    as [(-> & ->)|[(r & -> & Hr)|(t & ty & u & -> & Ht & Hu & Hty & Hsave & ->)]].
  - right; left. eauto.
  - left. exists r. destruct st. split; [done|]. destruct Hr; auto.
  - right; right. exists t, ty, u. done.
Qed.

(** The view handler proper: its four replies, its rejection, and the one
    case that appends. *)
Lemma post_view_cases e d id :
  (post_view e d id = Throw) \/
  (exists r, post_view e d id = Normal (r, d) /\
     (status r = 400 \/ status r = 404 \/ status r = 500)) \/
  (exists media,
     MediaAsset_findById (faults e) d id = Normal (Some media) /\
     save_rejects (faults e) = false /\
     post_view e d id =
       Normal (reply 201 (Json_message "View logged"),
               with_log d {| media_id := _id media; viewed_by_ip := ip e; timestamp := now e |})).
Proof.
  unfold post_view. destruct (isValid id); cbn [negb]; [|right; left; eauto].
  destruct (MediaAsset_findById (faults e) d id) as [[media|]|];
    cbn [mbind Completion_bind mret Completion_ret]; [| |by left].
  - unfold MediaViewLog_save. destruct (save_rejects (faults e)) eqn:Hsave;
      cbn [try_catch mbind Completion_bind mret Completion_ret].
    + right; left; eauto.
    + right; right. exists media. done.
  - right; left; eauto.
Qed.

(** The view route as a whole. *)
Lemma handle_view_cases st e authorization id :
  (exists st', handle cfg st e (POST_view authorization id) = (Throw, st') /\ db st' = db st) \/
  (exists r st', handle cfg st e (POST_view authorization id) = (Normal r, st') /\
     db st' = db st /\
     (status r = 401 \/ status r = 403 \/ status r = 429 \/
      status r = 400 \/ status r = 404 \/ status r = 500)) \/
  (exists media st',
     MediaAsset_findById (faults e) (db st) id = Normal (Some media) /\
     save_rejects (faults e) = false /\
     handle cfg st e (POST_view authorization id)
       = (Normal (reply 201 (Json_message "View logged")), st') /\
     db st' = with_log (db st)
       {| media_id := _id media; viewed_by_ip := ip e; timestamp := now e |}).
Proof.
  cbn [handle]. destruct (authenticateToken cfg e authorization) as [r|user] eqn:Hauth.
  { right; left. exists r, st. apply authenticateToken_reply in Hauth. intuition. }
  destruct (viewRateLimiter (hits st) (ip e) (now e)) as [[|] hits'].
  - destruct (post_view_cases e (db st) id) as [->|[(r & -> & Hr)|(media & Hf & Hs & ->)]].
    + left. eauto.
    + right; left. eexists _, _. split; [done|]. cbn. intuition.
    + right; right. eexists _, _. eauto.
  - right; left. eexists _, _. split; [done|]. cbn. intuition.
Qed.

(** The link handler: its error replies leave the store alone, its one
    success appends the row after signing. *)
Lemma get_stream_url_cases e d id :
  (exists m, get_stream_url cfg e d id = (reply 400 (Json_message m), d)) \/
  (exists m, get_stream_url cfg e d id = (reply 404 (Json_message m), d)) \/
  (get_stream_url cfg e d id = (reply 500 (Json_message "Server error"), d)) \/
  (exists media token,
     MediaAsset_findById (faults e) d id = Normal (Some media) /\
     jwt_sign (<["fileUrl" := JStr (file_url media)]> {["mediaId" := JStr (_id media)]})
       (STREAM_TOKEN_SECRET cfg) expiresIn_10m (now e) = Normal token /\
     save_rejects (faults e) = false /\
     get_stream_url cfg e d id =
       (reply 200 (Json_stream_url
          ("http://localhost:" +:+ PORT cfg +:+ "/stream/" +:+ token)),
        with_log d {| media_id := _id media; viewed_by_ip := ip e; timestamp := now e |})).
Proof.
  unfold get_stream_url. destruct (isValid id); cbn [negb]; [|left; eauto].
  destruct (MediaAsset_findById (faults e) d id) as [[media|]|];
    cbn [try_catch mbind Completion_bind mret Completion_ret]; [| |by right; right; left].
  - destruct (jwt_sign _ _ _ _) as [token|] eqn:Hsign;
      cbn [try_catch mbind Completion_bind mret Completion_ret]; [|by right; right; left].
    unfold MediaViewLog_save. destruct (save_rejects (faults e));
      cbn [try_catch mbind Completion_bind mret Completion_ret].
    + by right; right; left.
    + right; right; right. exists media, token. split_and!; reflexivity || assumption.
  - right; left; eauto.
Qed.

Lemma logs_of_with_log oid d l :
  logs_of oid (with_log d l) =
    (logs_of oid d ++ (if bool_decide (media_id l = oid) then [l] else []))%list.
Proof.
  unfold logs_of, with_log. cbn [mediaviewlogs]. rewrite filter_app. cbn [List.filter].
  by destruct (bool_decide _).
Qed.

Lemma rows_on_app k logs l :
  rows_on k (logs ++ [l])%list = rows_on k logs + (if bool_decide (day_key l = k) then 1 else 0).
Proof.
  unfold rows_on. rewrite filter_app, length_app. cbn [List.filter].
  by destruct (bool_decide _).
Qed.

(** One more row: the total grows by one, the distinct addresses and every
    day's count stay or grow. *)
Lemma summarize_snoc logs l :
  total_views (summarize (logs ++ [l])%list) = total_views (summarize logs) + 1 /\
  unique_ips (summarize logs) <= unique_ips (summarize (logs ++ [l])%list) /\
  (forall day c, views_per_day (summarize logs) !! day = Some c ->
     exists c', views_per_day (summarize (logs ++ [l])%list) !! day = Some c' /\ c <= c').
Proof.
  split_and!.
  - cbn [total_views summarize]. rewrite length_app. cbn [length]. lia.
  - cbn [unique_ips summarize]. apply subseteq_size. rewrite fmap_app.
    intros a. rewrite !elem_of_list_to_set, elem_of_app. by left.
  - intros day c. rewrite !views_per_day_lookup, rows_on_app.
    case_decide; [done|]. intros [= <-]. rewrite decide_False by lia.
    eexists. split; [done|]. lia.
Qed.

End Ingestion.

(** ** The claims about ingestion, issuance and the aggregate over time *)

Section StoreClaims.
Context `{JwtCodec} `{ObjectIdCast} {limiter_key : KeyGenerator}.
Variable cfg : Config.

(** C2.  Two analytics calls in a row give the same summary and leave the
    state untouched, whatever the clock or the caller; the summary is that of
    the asset's stored rows, taken in any order.  When one accepted view of
    the same asset comes between two calls, [total_views] grows by exactly
    one, [unique_ips] does not shrink, and every day present in the earlier
    summary is present in the later one with a count at least as large. *)
Theorem analytics_pure_and_monotone
    st e1 e2 ev e3 a1 a2 av a3 id idv s1 s2 s3 st1 st2 stv st3 rv :
  handle cfg st e1 (GET_analytics a1 id) = (Normal (reply 200 (Json_summary s1)), st1) ->
  handle cfg st1 e2 (GET_analytics a2 id) = (Normal (reply 200 (Json_summary s2)), st2) ->
  handle cfg st2 ev (POST_view av idv) = (Normal rv, stv) ->
  status rv = 201 ->
  castObjectId idv = castObjectId id ->
  handle cfg stv e3 (GET_analytics a3 id) = (Normal (reply 200 (Json_summary s3)), st3) ->
  s2 = s1 /\ st1 = st /\ st2 = st /\
  (exists media, media ∈ mediaassets (db st) /\
     forall logs, logs ≡ₚ logs_of (_id media) (db st) -> s1 = summarize logs) /\
  total_views s3 = total_views s2 + 1 /\
  unique_ips s2 <= unique_ips s3 /\
  (forall day c, views_per_day s2 !! day = Some c ->
     exists c', views_per_day s3 !! day = Some c' /\ c <= c').
Proof.
  intros H1 H2 Hv Hrv Hid H3.
  apply handle_analytics_200 in H1 as [-> H1].
  apply handle_analytics_200 in H2 as [-> H2].
  apply handle_analytics_200 in H3 as [-> H3].
  apply get_analytics_200 in H1 as (m1 & Hf1 & _ & ->).
  apply get_analytics_200 in H2 as (m2 & Hf2 & _ & ->).
  apply get_analytics_200 in H3 as (m3 & Hf3 & _ & ->).
  destruct (findById_Some _ _ _ _ Hf1) as (_ & Hc1 & _ & Hin1).
  destruct (findById_Some _ _ _ _ Hf2) as (_ & Hc2 & _ & _).
  destruct (findById_Some _ _ _ _ Hf3) as (_ & Hc3 & _ & _).
  assert (Hm2 : _id m2 = _id m1) by congruence.
  assert (Hm3 : _id m3 = _id m1) by congruence.
  rewrite Hm2, Hm3.
  destruct (handle_view_cases cfg st ev av idv)
    as [(st' & Hh & _)|[(r & st' & Hh & _ & Hr)|(mv & st' & Hfv & _ & Hh & Hdb)]];
    rewrite Hh in Hv.
  - done.
  - injection Hv as <- <-. lia.
  - injection Hv as <- <-.
    destruct (findById_Some _ _ _ _ Hfv) as (_ & Hcv & _ & _).
    assert (Hmv : _id mv = _id m1) by congruence.
    rewrite Hdb, logs_of_with_log. cbn [media_id].
    rewrite bool_decide_eq_true_2 by done.
    destruct (summarize_snoc (logs_of (_id m1) (db st))
      {| media_id := _id mv; viewed_by_ip := ip ev; timestamp := now ev |})
      as (Ht & Hu & Hd).
    split_and!; try done.
    exists m1. split; [done|]. intros logs Hp. symmetry. by apply summarize_Permutation.
Qed.

(** A view call is left without a reply only when the asset lookup rejects. *)
Lemma view_unanswered st e authorization id st' :
  handle cfg st e (POST_view authorization id) = (Throw, st') ->
  findById_rejects (faults e) = true.
Proof.
  cbn [handle]. destruct (authenticateToken cfg e authorization); [done|].
  destruct (viewRateLimiter (hits st) (ip e) (now e)) as [[|] hits']; [|done].
  unfold post_view, isValid, MediaAsset_findById.
  destruct (castObjectId id); cbn [negb]; [|done].
  destruct (findById_rejects (faults e)); [done|]. cbn [mbind Completion_bind].
  destruct (List.find _ _); cbn [mret Completion_ret]; [by destruct (try_catch _ _)|done].
Qed.

(** C4, as amended.  A view-ingestion call whose asset lookup answers is
    replied to with exactly one of the statuses 201, 429, 404, 400, 401, 403
    and 500, the last when the append to the view log rejects.  On 201
    exactly one row, for the asset found and the caller's address at the
    current instant, has been appended to the view log; on every other
    outcome the store is as it was. *)
Theorem view_ingestion_outcomes st e authorization id :
  exists o st',
    handle cfg st e (POST_view authorization id) = (o, st') /\
    (findById_rejects (faults e) = false ->
     exists r, o = Normal r /\ status r ∈ [201; 429; 404; 400; 401; 403; 500]) /\
    (forall r, o = Normal r -> status r = 201 ->
       exists media,
         MediaAsset_findById (faults e) (db st) id = Normal (Some media) /\
         mediaassets (db st') = mediaassets (db st) /\
         mediaviewlogs (db st') =
           (mediaviewlogs (db st) ++
            [{| media_id := _id media; viewed_by_ip := ip e; timestamp := now e |}])%list) /\
    ((forall r, o = Normal r -> status r ≠ 201) -> db st' = db st).
Proof.
  destruct (handle_view_cases cfg st e authorization id)
    as [(st' & Hh & Hdb)|[(r & st' & Hh & Hdb & Hr)|(media & st' & Hf & _ & Hh & Hdb)]].
  - exists Throw, st'. split_and!; [done| |done|done].
    intros Hanswers. apply view_unanswered in Hh. congruence.
  - exists (Normal r), st'. split_and!; [done| | |done].
    + intros _. exists r. split; [done|].
      destruct Hr as [-> | [-> | [-> | [-> | [-> | ->] ] ] ] ]; set_solver.
    + intros r' [= <-] Hr'. lia.
  - eexists _, st'. split_and!; [done| | |].
    + intros _. eexists. split; [done|]. cbn. set_solver.
    + intros r' _ _. exists media. by rewrite Hdb.
    + intros Hne. by destruct (Hne _ eq_refl).
Qed.

(** C5.  Whenever the stream-URL request is answered with status 200, the
    asset was found, one token was signed for it, the reply carries that
    token in its URL, and exactly one row [{media_id, viewed_by_ip,
    timestamp}] with the asset's id, the requesting address and the current
    instant has been appended to the view log. *)
Theorem stream_url_appends_view_log st e id r st' :
  handle cfg st e (GET_stream_url id) = (Normal r, st') ->
  status r = 200 ->
  exists media token,
    media ∈ mediaassets (db st) /\
    MediaAsset_findById (faults e) (db st) id = Normal (Some media) /\
    jwt_sign (<["fileUrl" := JStr (file_url media)]> {["mediaId" := JStr (_id media)]})
      (STREAM_TOKEN_SECRET cfg) expiresIn_10m (now e) = Normal token /\
    body r = Json_stream_url ("http://localhost:" +:+ PORT cfg +:+ "/stream/" +:+ token) /\
    mediaassets (db st') = mediaassets (db st) /\
    mediaviewlogs (db st') =
      (mediaviewlogs (db st) ++
       [{| media_id := _id media; viewed_by_ip := ip e; timestamp := now e |}])%list.
Proof.
  cbn [handle]. intros Hh Hr.
  destruct (get_stream_url_cases cfg e (db st) id)
    as [(m & Hg)|[(m & Hg)|[Hg|(media & token & Hf & Hs & _ & Hg)]]];
    rewrite Hg in Hh; injection Hh as <- <-; try done.
  exists media, token. split_and!; try done.
  by destruct (findById_Some _ _ _ _ Hf) as (_ & _ & _ & Hin).
Qed.

(** What a single request may do to the view log: nothing, or append one
    row whose [media_id] is the [_id] of an asset in the store at that
    moment.  The assets themselves are only ever added to. *)
Lemma handle_appends st e req :
  (exists more, mediaassets (db (handle cfg st e req).2) = (mediaassets (db st) ++ more)%list) /\
  (mediaviewlogs (db (handle cfg st e req).2) = mediaviewlogs (db st) \/
   exists l a,
     mediaviewlogs (db (handle cfg st e req).2) = (mediaviewlogs (db st) ++ [l])%list /\
     a ∈ mediaassets (db st) /\ _id a = media_id l).
Proof.
  destruct req as [authorization body|id|token|authorization id|authorization id].
  - destruct (handle_media_cases cfg st e authorization body)
      as [(r & -> & _)|[(user & _ & _ & ->)|(t & ty & u & _ & _ & _ & _ & _ & ->)]];
      cbn [snd db mediaassets mediaviewlogs].
    + split; [exists []; by rewrite app_nil_r|by left].
    + split; [exists []; by rewrite app_nil_r|by left].
    + split; [eauto|by left].
  - cbn [handle].
    destruct (get_stream_url_cases cfg e (db st) id)
      as [(m & ->)|[(m & ->)|[->|(media & token & Hf & _ & _ & ->)]]];
      cbn [snd db]; try (split; [exists []; by rewrite app_nil_r|by left]).
    split; [exists []; by rewrite app_nil_r|]. right.
    destruct (findById_Some _ _ _ _ Hf) as (_ & _ & _ & Hin). eauto.
  - split; [exists []; by rewrite app_nil_r|by left].
  - destruct (handle_view_cases cfg st e authorization id)
      as [(st' & -> & Hdb)|[(r & st' & -> & Hdb & _)|(media & st' & Hf & _ & -> & Hdb)]];
      cbn [snd]; rewrite Hdb; try (split; [exists []; by rewrite app_nil_r|by left]).
    split; [exists []; by rewrite app_nil_r|]. right.
    destruct (findById_Some _ _ _ _ Hf) as (_ & _ & _ & Hin). eauto.
  - cbn [handle]. destruct (authenticateToken cfg e authorization);
      (split; [exists []; by rewrite app_nil_r|by left]).
Qed.

(** A row a request appends carries that request's clock reading and
    client address. *)
Lemma appended_row_is_stamped st e req l :
  mediaviewlogs (db (handle cfg st e req).2) = (mediaviewlogs (db st) ++ [l])%list ->
  timestamp l = now e /\ viewed_by_ip l = ip e.
Proof.
  assert (Hsame : forall logs : list MediaViewLog, logs = (logs ++ [l])%list -> False).
  { intros logs Heq. apply (f_equal length) in Heq. rewrite length_app in Heq.
    cbn [length] in Heq. lia. }
  destruct req as [authorization body|id|token|authorization id|authorization id].
  - destruct (handle_media_cases cfg st e authorization body)
      as [(r & -> & _)|[(user & _ & _ & ->)|(t & ty & u & _ & _ & _ & _ & _ & ->)]];
      cbn [snd db mediaassets mediaviewlogs]; intros Heq; by apply Hsame in Heq.
  - cbn [handle].
    destruct (get_stream_url_cases cfg e (db st) id)
      as [(m & ->)|[(m & ->)|[->|(media & token & _ & _ & _ & ->)]]];
      cbn [snd db]; try (intros Heq; by apply Hsame in Heq).
    cbn [with_log mediaviewlogs]. intros Heq. by apply app_inv_head in Heq as [= <-].
  - intros Heq. by apply Hsame in Heq.
  - destruct (handle_view_cases cfg st e authorization id)
      as [(st' & -> & Hdb)|[(r & st' & -> & Hdb & _)|(media & st' & _ & _ & -> & Hdb)]];
      cbn [snd]; rewrite Hdb; try (intros Heq; by apply Hsame in Heq).
    cbn [with_log mediaviewlogs]. intros Heq. by apply app_inv_head in Heq as [= <-].
  - cbn [handle]. destruct (authenticateToken cfg e authorization);
      intros Heq; by apply Hsame in Heq.
Qed.

Lemma reachable_run st reqs : reachable cfg st -> reachable cfg (run cfg st reqs).2.
Proof.
  revert st. induction reqs as [|[e req] rest IH]; intros st Hst; [done|].
  cbn [run]. pose proof (reachable_handle cfg st e req Hst) as Hnext.
  destruct (handle cfg st e req) as [o st1]. specialize (IH st1 Hnext).
  by destruct (run cfg st1 rest).
Qed.

(** The references survive every request, from whatever store they hold in. *)
Lemma handle_preserves_references st e req :
  (forall l, l ∈ mediaviewlogs (db st) ->
     exists a, a ∈ mediaassets (db st) /\ _id a = media_id l) ->
  forall l, l ∈ mediaviewlogs (db (handle cfg st e req).2) ->
    exists a, a ∈ mediaassets (db (handle cfg st e req).2) /\ _id a = media_id l.
Proof.
  intros Hinv l Hl.
  destruct (handle_appends st e req) as [(more & Hassets) Hlogs]. rewrite Hassets.
  assert (Hold : forall l', l' ∈ mediaviewlogs (db st) ->
    exists a, a ∈ (mediaassets (db st) ++ more)%list /\ _id a = media_id l').
  { intros l' Hl'. destruct (Hinv l' Hl') as (a & Ha & Hid).
    exists a. split; [|done]. apply elem_of_app. by left. }
  destruct Hlogs as [Hsame|(l' & a & Happ & Ha & Hid)].
  - rewrite Hsame in Hl. by apply Hold.
  - rewrite Happ in Hl. apply elem_of_app in Hl as [Hl|Hl]; [by apply Hold|].
    apply list_elem_of_singleton in Hl as ->.
    exists a. split; [|done]. apply elem_of_app. by left.
Qed.

(** C6.  In every state the application reaches, each row of the view log
    names in [media_id] an asset of the store; and whatever request comes
    next, a row it appends names an asset that is in the store before the
    append, for the view route and the stream-URL route alike. *)
Theorem view_logs_reference_existing_assets st :
  reachable cfg st ->
  (forall l, l ∈ mediaviewlogs (db st) ->
     exists a, a ∈ mediaassets (db st) /\ _id a = media_id l) /\
  (forall e req,
     mediaviewlogs (db (handle cfg st e req).2) = mediaviewlogs (db st) \/
     exists l a,
       mediaviewlogs (db (handle cfg st e req).2) = (mediaviewlogs (db st) ++ [l])%list /\
       a ∈ mediaassets (db st) /\ _id a = media_id l).
Proof.
  intros Hreach. split; [|intros e req; apply handle_appends].
  induction Hreach as [|st e req Hreach IH].
  - cbn. intros l Hl. by apply not_elem_of_nil in Hl.
  - by apply handle_preserves_references.
Qed.

(** C10.  In the stream-URL handler, once the asset has been found and the
    token signed, a rejected append is answered with status 500 and the
    generic message, and the store is unchanged; and a reply that carries a
    stream URL is only ever sent together with the appended row. *)
Theorem stream_url_reply_after_append e d id :
  (forall media token,
     MediaAsset_findById (faults e) d id = Normal (Some media) ->
     jwt_sign (<["fileUrl" := JStr (file_url media)]> {["mediaId" := JStr (_id media)]})
       (STREAM_TOKEN_SECRET cfg) expiresIn_10m (now e) = Normal token ->
     save_rejects (faults e) = true ->
     get_stream_url cfg e d id = (reply 500 (Json_message "Server error"), d)) /\
  (forall url,
     body (get_stream_url cfg e d id).1 = Json_stream_url url ->
     save_rejects (faults e) = false /\
     status (get_stream_url cfg e d id).1 = 200 /\
     exists media,
       (get_stream_url cfg e d id).2 =
         with_log d {| media_id := _id media; viewed_by_ip := ip e; timestamp := now e |}).
Proof.
  split.
  - intros media token Hf Hs Hsave.
    destruct (findById_Some _ _ _ _ Hf) as (_ & _ & Hvalid & _).
    unfold get_stream_url, MediaViewLog_save. rewrite Hvalid, Hf. cbn [negb].
    cbn [try_catch mbind Completion_bind mret Completion_ret].
    rewrite Hs. cbn [try_catch mbind Completion_bind mret Completion_ret].
    by rewrite Hsave.
  - intros url.
    destruct (get_stream_url_cases cfg e d id)
      as [(m & ->)|[(m & ->)|[->|(media & token & Hf & _ & Hsave & ->)]]]; try done.
    intros _. split_and!; [done..|]. by exists media.
Qed.

End StoreClaims.

(** ** Tokens: signing, verification and the Authorization header *)

Section Tokens.
Context `{JwtCodec} `{ObjectIdCast} {limiter_key : KeyGenerator}.
Variable cfg : Config.

Lemma seconds_before (t n : Z) : (t / 1000 < n <-> t < n * 1000)%Z.
Proof. Z.div_mod_to_equations; lia. Qed.

(** Verifying, at any instant, what [jwt_sign] produced from a payload
    without [nbf]: expired once the clock reaches [exp], the claims before. *)
Lemma jwt_verify_signed payload secret expiresIn t token t' :
  payload !! "nbf" = None ->
  jwt_sign payload secret expiresIn t = Normal token ->
  jwt_verify token secret t' =
    if (t / 1000 + expiresIn <=? t' / 1000)%Z then inl TokenExpiredError
    else inr (<["exp" := JNum (t / 1000 + expiresIn)]> (<["iat" := JNum (t / 1000)]> payload)).
Proof.
  intros Hnbf. unfold jwt_sign, jwt_verify.
  destruct (bool_decide_reflect (secret = "")) as [|Hsecret]; [done|].
  intros [= <-]. rewrite parse_compact. cbn [jws_payload jws_signature].
  rewrite bool_decide_eq_false_2.
  - rewrite String.eqb_refl. cbn [negb]. unfold check_nbf, check_exp.
    rewrite !lookup_insert_ne, Hnbf by done. rewrite lookup_insert_eq.
    by destruct (_ <=? _)%Z.
  - intros Hempty. pose proof (parse_compact
      {| jws_payload := <["exp" := JNum (t / 1000 + expiresIn)]>
                          (<["iat" := JNum (t / 1000)]> payload);
         jws_signature := hs256 secret
           (<["exp" := JNum (t / 1000 + expiresIn)]> (<["iat" := JNum (t / 1000)]> payload)) |})
      as Hp.
    rewrite Hempty, parse_empty in Hp. done.
Qed.

Lemma jwt_sign_parse payload secret expiresIn t token :
  jwt_sign payload secret expiresIn t = Normal token ->
  exists j, parse token = Some j /\
    jws_payload j = <["exp" := JNum (t / 1000 + expiresIn)]> (<["iat" := JNum (t / 1000)]> payload).
Proof.
  unfold jwt_sign. destruct (bool_decide _); [done|]. intros [= <-].
  rewrite parse_compact. eauto.
Qed.

(** A token that fails in one of the three ways is handed to the callback
    as an error. *)
Lemma rejected_token_verify secret t token :
  rejected_token secret t token -> exists err, jwt_verify token secret t = inl err.
Proof.
  unfold jwt_verify. intros Hbad.
  destruct (bool_decide (token = "")); [eauto|].
  destruct Hbad as [->|[(j & -> & Hsig)|(j & exp & -> & Hexp & Hnow)]]; [eauto| |].
  - destruct (bool_decide (secret = "")); [eauto|].
    destruct (String.eqb_spec (jws_signature j) (hs256 secret (jws_payload j))); [done|].
    cbn [negb]. eauto.
  - destruct (bool_decide (secret = "")); [eauto|].
    destruct (negb _); [eauto|].
    destruct (check_nbf _ _); [eauto|].
    unfold check_exp. rewrite Hexp.
    destruct (Z.leb_spec exp (t / 1000)) as [|Hlt]; [eauto|].
    apply seconds_before in Hlt. lia.
Qed.

Lemma jwt_verify_ok token secret t claims :
  jwt_verify token secret t = inr claims -> token <> "" /\ has_space token = false.
Proof.
  unfold jwt_verify. destruct (bool_decide_reflect (token = "")); [done|].
  destruct (parse token) as [j|] eqn:Hparse; [|done]. intros _.
  split; [done|]. by eapply parse_no_space.
Qed.

(** [split]: a string without a space is one segment, and a space after such
    a string starts the next segment. *)
Lemma split_nonempty sep s : split sep s <> [].
Proof.
  destruct s as [|c r]; cbn [split]; [done|].
  destruct (Ascii.eqb c sep); [done|]. by destruct (split sep r).
Qed.

Lemma split_no_space s : has_space s = false -> split " " s = [s].
Proof.
  induction s as [|c r IH]; simpl; [done|].
  intros Hs. apply orb_false_iff in Hs as [-> Hr]. by rewrite IH.
Qed.

Lemma split_second_None h : has_space h = false -> split " " h !! 1 = None.
Proof. intros Hs. by rewrite split_no_space. Qed.

Lemma split_scheme scheme rest :
  has_space scheme = false ->
  split " " (scheme +:+ " " +:+ rest) = scheme :: split " " rest.
Proof.
  induction scheme as [|c r IH]; simpl; [done|].
  intros Hs. apply orb_false_iff in Hs as [-> Hr]. by rewrite IH.
Qed.

Lemma split_scheme_token scheme token :
  has_space scheme = false -> has_space token = false ->
  split " " (scheme +:+ " " +:+ token) !! 1 = Some token.
Proof. intros Hs Ht. by rewrite split_scheme, split_no_space. Qed.

(** The middleware in terms of the second segment alone. *)
Lemma authenticateToken_segment e h :
  authenticateToken cfg e (Some h) =
    match split " " h !! 1 with
    | None => inl (reply 401 (Json_message "Unauthorized: No token provided"))
    | Some token =>
        if bool_decide (token = "") then
          inl (reply 401 (Json_message "Unauthorized: No token provided"))
        else
          match jwt_verify token (jwtSecret cfg) (now e) with
          | inl err => inl (reply 403 (Json_message "Forbidden: Invalid token"))
          | inr user => inr user
          end
    end.
Proof.
  unfold authenticateToken. cbn [falsy].
  destruct (bool_decide_reflect (h = "")) as [->|Hh]; [done|].
  destruct (split " " h !! 1) as [token|]; cbn [falsy default]; [|done].
  by destruct (bool_decide (token = "")).
Qed.

Lemma get_stream_rejected e token :
  rejected_token (STREAM_TOKEN_SECRET cfg) (now e) token ->
  get_stream cfg e token = reply 403 (Send "Forbidden: Invalid or expired stream link.").
Proof.
  intros Hbad. apply rejected_token_verify in Hbad as [err Herr].
  unfold get_stream. by rewrite Herr.
Qed.

Lemma run_stream st token (es : list Env) r :
  Forall (fun e => get_stream cfg e token = r) es ->
  run cfg st ((fun e => (e, GET_stream token)) <$> es) = (replicate (length es) (Normal r), st).
Proof.
  induction 1 as [|e es He _ IH]; [done|].
  cbn [fmap list_fmap run handle length replicate]. rewrite He.
  change (list_fmap _ _ ?f es) with (f <$> es). by rewrite IH.
Qed.

(** C3.  When the stream-URL request is answered with status 200 and a URL,
    the URL ends in a token that carries the asset's [file_url], the issuing
    instant in whole seconds as [iat], and [exp] ten minutes later.  At every
    instant before [iat] plus ten minutes, in whatever state and however
    often, redeeming the token is answered with status 200 and the text
    granting exactly that [file_url]; at that instant and at every later one
    it is answered with status 403.  Redeeming never changes the state. *)
Theorem stream_token_lifetime st e id url st' :
  handle cfg st e (GET_stream_url id) = (Normal (reply 200 (Json_stream_url url)), st') ->
  exists media token j,
    MediaAsset_findById (faults e) (db st) id = Normal (Some media) /\
    url = "http://localhost:" +:+ PORT cfg +:+ "/stream/" +:+ token /\
    parse token = Some j /\
    jws_payload j !! "fileUrl" = Some (JStr (file_url media)) /\
    jws_payload j !! "mediaId" = Some (JStr (_id media)) /\
    jws_payload j !! "iat" = Some (JNum (now e / 1000)) /\
    jws_payload j !! "exp" = Some (JNum (now e / 1000 + 600)) /\
    let issued_at := (now e / 1000 * 1000)%Z in
    let granted := reply 200 (Send ("Access granted to stream file: " +:+ file_url media)) in
    let refused := reply 403 (Send "Forbidden: Invalid or expired stream link.") in
    (forall st2 e2, (now e2 < issued_at + 600000)%Z ->
       handle cfg st2 e2 (GET_stream token) = (Normal granted, st2)) /\
    (forall st2 e2, (issued_at + 600000 <= now e2)%Z ->
       handle cfg st2 e2 (GET_stream token) = (Normal refused, st2)) /\
    (forall st2 (es : list Env), Forall (fun e2 => (now e2 < issued_at + 600000)%Z) es ->
       run cfg st2 ((fun e2 => (e2, GET_stream token)) <$> es)
         = (replicate (length es) (Normal granted), st2)).
Proof.
  intros Hh. cbn [handle] in Hh.
  destruct (get_stream_url_cases cfg e (db st) id)
    as [(m & Hg)|[(m & Hg)|[Hg|(media & token & Hf & Hs & _ & Hg)]]];
    rewrite Hg in Hh; unfold reply in Hh; simplify_eq.
  destruct (jwt_sign_parse _ _ _ _ _ Hs) as (j & Hparse & Hclaims).
  assert (Hverify : forall t',
    jwt_verify token (STREAM_TOKEN_SECRET cfg) t' =
      if (now e / 1000 + 600 <=? t' / 1000)%Z then inl TokenExpiredError
      else inr (jws_payload j)).
  { intros t'. rewrite Hclaims. by apply jwt_verify_signed. }
  assert (Hurl : jws_payload j !! "fileUrl" = Some (JStr (file_url media)))
    by (rewrite Hclaims; by simplify_map_eq).
  assert (Hgrant : forall e2, (now e2 < now e / 1000 * 1000 + 600000)%Z ->
    get_stream cfg e2 token =
      reply 200 (Send ("Access granted to stream file: " +:+ file_url media))).
  { intros e2 Hlt. unfold get_stream. rewrite Hverify.
    destruct (Z.leb_spec (now e / 1000 + 600) (now e2 / 1000)) as [Hle|_];
      [|by rewrite Hurl].
    assert (now e2 / 1000 < now e / 1000 + 600)%Z by (apply seconds_before; lia). lia. }
  exists media, token, j. cbv zeta. split_and!; try done.
  - rewrite Hclaims. by simplify_map_eq.
  - rewrite Hclaims. by simplify_map_eq.
  - rewrite Hclaims. by simplify_map_eq.
  - intros st2 e2 Hlt. cbn [handle]. by rewrite Hgrant.
  - intros st2 e2 Hge. cbn [handle]. unfold get_stream. rewrite Hverify.
    destruct (Z.leb_spec (now e / 1000 + 600) (now e2 / 1000)) as [_|Hlt]; [done|].
    apply seconds_before in Hlt. lia.
  - intros st2 es Hes. apply run_stream. eapply Forall_impl; [|exact Hes].
    intros e2 Hlt. by apply Hgrant.
Qed.

(** C7.  A token that does not parse, whose signature is not the one the
    secret gives, or whose [exp] has been reached makes [jwt.verify] hand an
    error to its callback, and both callers branch on it: the stream route
    replies 403 and leaves the state alone, and the middleware, for which the
    token is the second segment of the header, replies 403.  Whatever string
    is presented, either caller yields a reply or the decoded claims. *)
Theorem verification_failure_is_forbidden e token :
  (rejected_token (STREAM_TOKEN_SECRET cfg) (now e) token ->
     (exists err, jwt_verify token (STREAM_TOKEN_SECRET cfg) (now e) = inl err) /\
     forall st, handle cfg st e (GET_stream token)
       = (Normal (reply 403 (Send "Forbidden: Invalid or expired stream link.")), st)) /\
  (rejected_token (jwtSecret cfg) (now e) token ->
     (exists err, jwt_verify token (jwtSecret cfg) (now e) = inl err) /\
     forall h, split " " h !! 1 = Some token -> token <> "" ->
       authenticateToken cfg e (Some h)
         = inl (reply 403 (Json_message "Forbidden: Invalid token"))) /\
  (forall st, exists r, handle cfg st e (GET_stream token) = (Normal r, st) /\
     (status r = 200 \/ status r = 403)) /\
  (forall h, (exists r, authenticateToken cfg e h = inl r /\ (status r = 401 \/ status r = 403))
     \/ (exists user, authenticateToken cfg e h = inr user)).
Proof.
  split_and!.
  - intros Hbad. split; [by apply rejected_token_verify|].
    intros st. cbn [handle]. by rewrite get_stream_rejected.
  - intros Hbad. apply rejected_token_verify in Hbad as [err Herr].
    split; [eauto|]. intros h Hseg Hne.
    rewrite authenticateToken_segment, Hseg, bool_decide_eq_false_2, Herr; done.
  - intros st. cbn [handle]. unfold get_stream.
    destruct (jwt_verify _ _ _); eexists; (split; [done|]); cbn; auto.
  - intros h. destruct (authenticateToken cfg e h) as [r|user] eqn:Hauth; [|eauto].
    left. exists r. split; [done|]. by eapply authenticateToken_reply.
Qed.

(** C9.  The middleware reads the credential off the second segment of the
    header as [split(' ')] cuts it, and off nothing else: without a header,
    without a second segment (a bare token, which holds no space, has none)
    or with an empty one the reply is 401, never 403; otherwise the outcome
    is that of verifying the segment.  The first segment is not looked at:
    any scheme word followed by one space and a token that verifies under
    the session secret passes, with the token's claims. *)
Theorem authorization_second_segment e :
  authenticateToken cfg e None
    = inl (reply 401 (Json_message "Unauthorized: No token provided")) /\
  (forall h, split " " h !! 1 = None \/ split " " h !! 1 = Some "" ->
     authenticateToken cfg e (Some h)
       = inl (reply 401 (Json_message "Unauthorized: No token provided"))) /\
  (forall h, has_space h = false -> split " " h !! 1 = None) /\
  (forall h token, split " " h !! 1 = Some token -> token <> "" ->
     authenticateToken cfg e (Some h) =
       match jwt_verify token (jwtSecret cfg) (now e) with
       | inl err => inl (reply 403 (Json_message "Forbidden: Invalid token"))
       | inr user => inr user
       end) /\
  (forall scheme token user,
     has_space scheme = false ->
     jwt_verify token (jwtSecret cfg) (now e) = inr user ->
     authenticateToken cfg e (Some (scheme +:+ " " +:+ token)) = inr user).
Proof.
  split_and!.
  - done.
  - intros h [Hseg|Hseg]; by rewrite authenticateToken_segment, Hseg.
  - apply split_second_None.
  - intros h token Hseg Hne.
    by rewrite authenticateToken_segment, Hseg, bool_decide_eq_false_2.
  - intros scheme token user Hscheme Hverify.
    destruct (jwt_verify_ok _ _ _ _ Hverify) as [Hne Hspace].
    rewrite authenticateToken_segment, split_scheme_token by done.
    by rewrite bool_decide_eq_false_2, Hverify.
Qed.

End Tokens.

(** ** Further properties of the routes *)

Section Further.
Context `{JwtCodec} `{ObjectIdCast} {limiter_key : KeyGenerator}.
Variable cfg : Config.





(** The id is checked before the store is touched, and the asset is looked
    up before anything is written: an id that is not valid is answered 400 by
    all three id routes whatever the store would do, and an id of no asset is
    answered 404; either way the store stays as it is. *)
Theorem id_checked_before_store e d id :
  (isValid id = false ->
     get_stream_url cfg e d id = (reply 400 (Json_message "Invalid media ID"), d) /\
     post_view e d id = Normal (reply 400 (Json_message "Invalid media ID"), d) /\
     get_analytics e d id = Normal (reply 400 (Json_message "Invalid media ID"))) /\
  (MediaAsset_findById (faults e) d id = Normal None ->
     get_stream_url cfg e d id = (reply 404 (Json_message "Media not found"), d) /\
     post_view e d id = Normal (reply 404 (Json_message "Media not found"), d) /\
     get_analytics e d id = Normal (reply 404 (Json_message "Media not found"))).
Proof.
  unfold get_stream_url, post_view, get_analytics. split.
  - by intros ->.
  - intros Hfind.
    assert (Hvalid : isValid id = true).
    { unfold MediaAsset_findById, isValid in *. destruct (findById_rejects _); [done|].
      by destruct (castObjectId id). }
    by rewrite Hvalid, Hfind.
Qed.

End Further.

(** ** The routes over any sequence of requests *)

Section Sequences.
Context `{JwtCodec} `{ObjectIdCast} {limiter_key : KeyGenerator}.
Variable cfg : Config.

Lemma size_list_to_set_le (l : list string) : size (list_to_set l : gset string) <= length l.
Proof.
  induction l as [|x l IH]; [done|].
  cbn [list_to_set length]. rewrite size_union_alt, size_singleton.
  assert (Hle : size ((list_to_set l : gset string) ∖ {[x]})
                 <= size (list_to_set l : gset string))
    by (apply subseteq_size; intros y [Hy _]%elem_of_difference; exact Hy).
  lia.
Qed.

(** What one request does to the two collections: nothing, one asset
    appended by a registration answered 201, or one row appended by a view
    answered 201 or a link answered 200, for the asset its id was found as. *)
Lemma handle_store_cases st e req :
  let o := (handle cfg st e req).1 in
  let d' := db (handle cfg st e req).2 in
  (logged req o = false /\ registered req o = false /\ d' = db st) \/
  (logged req o = false /\ registered req o = true /\
     mediaviewlogs d' = mediaviewlogs (db st) /\
     exists a, mediaassets d' = (mediaassets (db st) ++ [a])%list) \/
  (logged req o = true /\ registered req o = false /\
     exists id media,
       view_target req = Some id /\
       MediaAsset_findById (faults e) (db st) id = Normal (Some media) /\
       d' = with_log (db st)
              {| media_id := _id media; viewed_by_ip := ip e; timestamp := now e |}).
Proof.
  cbv zeta.
  destruct req as [authorization body|id|token|authorization id|authorization id].
  - destruct (handle_media_cases cfg st e authorization body)
      as [(r & -> & Hr)|[(user & _ & _ & ->)|(t & ty & u & _ & _ & _ & _ & _ & ->)]];
      cbn [fst snd logged registered db mediaassets mediaviewlogs].
    + left. split_and!; [done| |done]. apply bool_decide_eq_false. lia.
    + by left.
    + right; left. split_and!; [done|done|done|eauto].
  - cbn [handle].
    destruct (get_stream_url_cases cfg e (db st) id)
      as [(m & ->)|[(m & ->)|[->|(media & token & Hf & _ & _ & ->)]]];
      cbn [fst snd db logged registered]; try by left.
    right; right. split_and!; [done|done|]. exists id, media. done.
  - by left.
  - destruct (handle_view_cases cfg st e authorization id)
      as [(st' & -> & Hdb)|[(r & st' & -> & Hdb & Hr)|(media & st' & Hf & _ & -> & Hdb)]];
      cbn [fst snd logged registered]; rewrite Hdb.
    + by left.
    + left. split_and!; [|done|done]. apply bool_decide_eq_false. lia.
    + right; right. split_and!; [done|done|]. exists id, media. done.
  - cbn [handle]. destruct (authenticateToken cfg e authorization); by left.
Qed.

Lemma count_outcomes_cons p e req reqs o os :
  count_outcomes p ((e, req) :: reqs) (o :: os)
    = (if p req o then 1 else 0) + count_outcomes p reqs os.
Proof.
  unfold count_outcomes. cbn [fmap list_fmap zip zip_with List.filter fst snd].
  by destruct (p req o).
Qed.

(** Over any sequence of requests, with any clocks, addresses and store
    faults: every request gets one outcome; the view log afterwards is the
    log before followed by as many rows as there were views answered 201 and
    links answered 200; the assets afterwards are the assets before followed
    by as many as there were registrations answered 201.  Nothing is removed
    or rewritten. *)
Theorem rows_match_accepted_requests st reqs :
  let os := (run cfg st reqs).1 in
  let d' := db (run cfg st reqs).2 in
  length os = length reqs /\
  (exists rows, mediaviewlogs d' = (mediaviewlogs (db st) ++ rows)%list /\
     length rows = count_outcomes logged reqs os) /\
  (exists assets, mediaassets d' = (mediaassets (db st) ++ assets)%list /\
     length assets = count_outcomes registered reqs os).
Proof.
  cbv zeta. revert st. induction reqs as [|[e req] rest IH]; intros st.
  { cbn [run fst snd]. split_and!; [done|exists []|exists []];
      by rewrite app_nil_r. }
  cbn [run]. pose proof (handle_store_cases st e req) as Hstep. cbv zeta in Hstep.
  destruct (handle cfg st e req) as [o st1]. cbn [fst snd] in Hstep.
  specialize (IH st1).
  destruct (run cfg st1 rest) as [os st2]. cbn [fst snd] in IH |- *.
  destruct IH as (Hlen & (rows & Hrows & Hnrows) & (assets & Hassets & Hnassets)).
  rewrite !count_outcomes_cons. cbn [length]. split; [by rewrite Hlen|].
  destruct Hstep
    as [(-> & -> & Hd)|[(-> & -> & Hlogs & a & Ha)|(-> & -> & id & media & _ & _ & Hd)]].
  - rewrite Hd in Hrows, Hassets. split; eauto.
  - rewrite Hlogs in Hrows. rewrite Ha, <- app_assoc in Hassets. split; [eauto|].
    eexists; split; [exact Hassets|]. cbn [app length]. lia.
  - rewrite Hd in Hrows, Hassets. cbn [with_log mediaviewlogs mediaassets] in Hrows, Hassets.
    rewrite <- app_assoc in Hrows. split; [|eauto].
    eexists; split; [exact Hrows|]. cbn [app length]. lia.
Qed.

Lemma find_app_Some {A} (f : A -> bool) (l more : list A) x :
  List.find f l = Some x -> List.find f (l ++ more)%list = Some x.
Proof.
  induction l as [|y l IH]; [done|]. cbn [List.find app].
  destruct (f y); [done|]. exact IH.
Qed.

Lemma authenticated_analytics st e authorization id s st' :
  handle cfg st e (GET_analytics authorization id)
    = (Normal (reply 200 (Json_summary s)), st') ->
  exists user, authenticateToken cfg e authorization = inr user.
Proof.
  intros Hh. apply handle_analytics in Hh as [_ [(r & Hauth & [= <-])|(user & Hauth & _)]].
  - destruct (authenticateToken_reply cfg _ _ _ Hauth) as [Hr|Hr]; cbn in Hr; lia.
  - eauto.
Qed.

(** The summary of an asset is made of that asset's rows alone: a request
    that is not a view or a link for the same asset (one for another asset,
    a registration, a redemption, another analytics call), whatever its
    outcome, leaves a 200 analytics reply exactly as it was. *)
Theorem summary_ignores_other_requests st e req e1 a1 id s st1 :
  handle cfg st e1 (GET_analytics a1 id) = (Normal (reply 200 (Json_summary s)), st1) ->
  (forall id', view_target req = Some id' -> castObjectId id' <> castObjectId id) ->
  handle cfg (handle cfg st e req).2 e1 (GET_analytics a1 id)
    = (Normal (reply 200 (Json_summary s)), (handle cfg st e req).2).
Proof.
  intros Hfirst Hother.
  destruct (authenticated_analytics _ _ _ _ _ _ Hfirst) as [user Hauth].
  apply handle_analytics_200 in Hfirst as [_ Hget].
  apply get_analytics_200 in Hget as (media & Hf & Hfind & ->).
  pose proof (findById_Some _ _ _ _ Hf) as (Hrej & Hcast & _ & _).
  pose proof (handle_store_cases st e req) as Hstep. cbv zeta in Hstep.
  set (st' := (handle cfg st e req).2) in *.
  assert (Hf' : MediaAsset_findById (faults e1) (db st') id = Normal (Some media)).
  { unfold MediaAsset_findById in Hf |- *. rewrite Hrej, Hcast in Hf |- *.
    injection Hf as Hf. f_equal.
    destruct Hstep as [(_ & _ & ->)|[(_ & _ & _ & a & ->)|(_ & _ & id' & media' & _ & _ & ->)]];
      [done|by apply find_app_Some|done]. }
  assert (Hlogs : logs_of (_id media) (db st') = logs_of (_id media) (db st)).
  { destruct Hstep as [(_ & _ & ->)|[(_ & _ & Hl & _)|(_ & _ & id' & media' & Ht & Hf2 & ->)]];
      [done|unfold logs_of; by rewrite Hl|].
    rewrite logs_of_with_log. cbn [media_id].
    pose proof (findById_Some _ _ _ _ Hf2) as (_ & Hcast' & _ & _).
    rewrite bool_decide_eq_false_2; [by rewrite app_nil_r|].
    intros Heq. apply (Hother id' Ht). congruence. }
  cbn [handle]. rewrite Hauth, (get_analytics_found _ _ _ _ Hf' Hfind), Hlogs. done.
Qed.

(** Every summary the analytics route sends is consistent in itself, for
    any timestamps: no more addresses and no more days than views, each
    day's count between 1 and the total, the counts adding up to the total,
    and an empty per-day object, zero addresses and zero views going
    together. *)
Theorem summary_is_consistent st e authorization id s st' :
  handle cfg st e (GET_analytics authorization id)
    = (Normal (reply 200 (Json_summary s)), st') ->
  unique_ips s <= total_views s /\
  size (views_per_day s) <= total_views s /\
  sum_values (views_per_day s) = total_views s /\
  (forall day c, views_per_day s !! day = Some c -> 1 <= c <= total_views s) /\
  (total_views s = 0 <-> views_per_day s = ∅) /\
  (total_views s = 0 <-> unique_ips s = 0).
Proof.
  intros Hh. apply handle_analytics_200 in Hh as [_ Hget].
  apply get_analytics_200 in Hget as (media & _ & _ & ->).
  generalize (logs_of (_id media) (db st)). intros logs.
  assert (Hips : unique_ips (summarize logs) <= length logs).
  { cbn [summarize unique_ips]. etrans; [apply size_list_to_set_le|].
    by rewrite length_fmap. }
  assert (Hdays : size (views_per_day (summarize logs)) <= length logs).
  { rewrite <- size_dom, views_per_day_dom. etrans; [apply size_list_to_set_le|].
    by rewrite length_fmap. }
  pose proof (sum_values_summarize logs) as Hsum.
  change (total_views (summarize logs)) with (length logs).
  split_and!; [done|done|done| | |].
  - intros day c. rewrite views_per_day_lookup. case_decide; [done|].
    intros [= <-]. split; [lia|]. unfold rows_on. apply List.filter_length_le.
  - split.
    + intros Hz. destruct logs; [done|discriminate].
    + intros Hempty. rewrite Hempty in Hsum. rewrite <- Hsum. done.
  - split; [lia|]. intros Hz. destruct logs as [|l logs]; [done|].
    cbn [summarize unique_ips fmap list_fmap list_to_set] in Hz.
    apply size_empty_iff in Hz. set_solver.
Qed.

(** Without a [STREAM_TOKEN_SECRET] no link is ever issued and none is
    honoured: signing throws inside the [try], so a stream-url request never
    gets 200 and never logs a view (for an existing asset it is answered
    500), and every redemption is answered 403. *)
Theorem stream_secret_unset e d id :
  STREAM_TOKEN_SECRET cfg = "" ->
  (get_stream_url cfg e d id).2 = d /\
  status (get_stream_url cfg e d id).1 ∈ [400; 404; 500] /\
  (forall media, MediaAsset_findById (faults e) d id = Normal (Some media) ->
     get_stream_url cfg e d id = (reply 500 (Json_message "Server error"), d)) /\
  (forall token, get_stream cfg e token
     = reply 403 (Send "Forbidden: Invalid or expired stream link.")).
Proof.
  intros Hsecret.
  assert (Hsign : forall payload, jwt_sign payload (STREAM_TOKEN_SECRET cfg) expiresIn_10m (now e)
                    = Throw).
  { intros payload. unfold jwt_sign. by rewrite Hsecret. }
  split_and!.
  - destruct (get_stream_url_cases cfg e d id)
      as [(m & ->)|[(m & ->)|[->|(media & token & _ & Hs & _)]]]; try done.
    by rewrite Hsign in Hs.
  - destruct (get_stream_url_cases cfg e d id)
      as [(m & ->)|[(m & ->)|[->|(media & token & _ & Hs & _)]]];
      cbn [fst status reply]; [rewrite !elem_of_cons; auto..|].
    by rewrite Hsign in Hs.
  - intros media Hf. pose proof (findById_Some _ _ _ _ Hf) as (_ & _ & Hvalid & _).
    unfold get_stream_url. rewrite Hvalid, Hf. cbn [negb mbind Completion_bind].
    by rewrite Hsign.
  - intros token. unfold get_stream, jwt_verify. rewrite Hsecret.
    case_bool_decide; [done|]. by destruct (parse token).
Qed.



End Sequences.

(** ** The grouping key of [views_per_day], for any instant *)

Section DayKeys.
Local Open Scope Z_scope.

(** The first ten characters of the ISO string, from the date alone: the
    whole date when the year prints with four digits, otherwise the sign, six
    digits of the year and the month. *)
Lemma day_key_civil l :
  day_key l =
    let '(y, m, d) := civil (Day (timestamp l)) in
    if (0 <=? y) && (y <=? 9999) then
      String.append (pad4 y) (String.append "-" (String.append (pad2 m)
        (String.append "-" (pad2 d))))
    else
      String.append (if y <? 0 then "-" else "+")
        (String.append (pad6 (Z.abs y)) (String.append "-" (pad2 m))).
Proof.
  unfold day_key, toISOString. destruct (civil (Day (timestamp l))) as [[y m] d].
  unfold yearString. destruct ((0 <=? y) && (y <=? 9999))%bool; [reflexivity|].
  destruct (y <? 0); reflexivity.
Qed.

Lemma Day_fourDigitYear t : -719528 <= Day t <= 2932896 -> fourDigitYear t.
Proof. unfold fourDigitYear, Day, msPerDay. intros Ht. Z.div_mod_to_equations; lia. Qed.

Lemma civil_four_digits z :
  let '(y, m, d) := civil z in 0 <= y <= 9999 -> -719528 <= z <= 2932896.
Proof.
  pose proof (civil_year z) as Hyear. destruct (civil z) as [[y m] d].
  unfold DayFromYear in Hyear. intros Hy. Z.div_mod_to_equations; lia.
Qed.

(** Rows are grouped by UTC calendar day: two rows of one UTC day, at
    whatever time of day, fall under the same key of [views_per_day]; and
    within the years 0000 to 9999 two rows under the same key are of the same
    UTC day. *)
Theorem views_grouped_by_utc_day l1 l2 :
  (Day (timestamp l1) = Day (timestamp l2) -> day_key l1 = day_key l2) /\
  (fourDigitYear (timestamp l1) -> fourDigitYear (timestamp l2) ->
     day_key l1 = day_key l2 -> Day (timestamp l1) = Day (timestamp l2)).
Proof.
  split.
  - intros Hday. rewrite !day_key_civil, Hday. reflexivity.
  - intros H1 H2. rewrite !day_key_in_range by done.
    apply YYYY_MM_DD_inj; by apply fourDigitYear_Day.
Qed.

(** Outside the years 0000 to 9999 the ISO string starts with a sign and six
    digits of the year, so its first ten characters end with the month: two
    rows of the same month of such a year fall under one key, whatever their
    days. *)
Theorem days_merge_outside_four_digit_years l1 l2 y m d1 d2 :
  ~ fourDigitYear (timestamp l1) ->
  civil (Day (timestamp l1)) = (y, m, d1) ->
  civil (Day (timestamp l2)) = (y, m, d2) ->
  ~ (0 <= y <= 9999) /\
  day_key l1 = String.append (if y <? 0 then "-" else "+")
                 (String.append (pad6 (Z.abs y)) (String.append "-" (pad2 m))) /\
  day_key l2 = day_key l1.
Proof.
  intros Hout1 Hc1 Hc2.
  assert (Hy : ~ (0 <= y <= 9999)).
  { intros Hy. apply Hout1, Day_fourDigitYear.
    pose proof (civil_four_digits (Day (timestamp l1))) as Hr. rewrite Hc1 in Hr. auto. }
  rewrite !day_key_civil, Hc1, Hc2.
  replace ((0 <=? y) && (y <=? 9999))%bool with false; [done|].
  symmetry. apply andb_false_iff.
  destruct (Z.leb_spec 0 y); [|by left]. right. apply Z.leb_gt. lia.
Qed.

End DayKeys.

(** ** Signup, login and the session token *)

Section Credentials.
Context `{JwtCodec} `{ObjectIdCast} {limiter_key : KeyGenerator} `{Bcrypt}.
Variable cfg : Config.
Variable JWT_SECRET : string.

Ltac status_in := rewrite !elem_of_cons; auto.

Lemma find_email_None users em :
  List.find (fun u => bool_decide (Auth.email u = em)) users = None <->
  forall u, u ∈ users -> Auth.email u <> em.
Proof.
  induction users as [|u0 users IH]; cbn [List.find].
  - split; [|done]. intros _ u Hu. by apply elem_of_nil in Hu.
  - case_bool_decide as Hem.
    + split; [done|]. intros Hall. exfalso. apply (Hall u0); [left|done].
    + rewrite IH. split.
      * intros Hall u [->|Hu]%elem_of_cons; auto.
      * intros Hall u Hu. apply Hall. by right.
Qed.

Lemma find_email_Some users em u :
  List.find (fun u => bool_decide (Auth.email u = em)) users = Some u ->
  u ∈ users /\ Auth.email u = em.
Proof.
  induction users as [|u0 users IH]; cbn [List.find]; [done|].
  case_bool_decide as Hem.
  - intros [= <-]. split; [left|done].
  - intros Hf. destruct (IH Hf). split; [by right|done].
Qed.

Lemma find_email_snoc users u :
  (forall u', u' ∈ users -> Auth.email u' <> Auth.email u) ->
  List.find (fun u' => bool_decide (Auth.email u' = Auth.email u)) (users ++ [u])%list = Some u.
Proof.
  intros Hnone. induction users as [|u0 users IH]; cbn [List.find app].
  - by rewrite bool_decide_eq_true_2.
  - rewrite bool_decide_eq_false_2 by (apply Hnone; left).
    apply IH. intros u' Hu'. apply Hnone. by right.
Qed.

(** The lookup of a signup, case by case: no parsed body, a reply sent
    (400, 409 or 500), or the email free and the document to save. *)
Lemma signup_lookup_cases e users body :
  (body = None /\ Auth.signup_lookup e users body = Throw) \/
  (exists r, Auth.signup_lookup e users body = Normal (inl r) /\
     Auth.status r ∈ [400; 409; 500]) \/
  (exists em pw,
     body = Some (Some em, Some pw) /\ em <> "" /\ pw <> "" /\
     (forall u, u ∈ users -> Auth.email u <> em) /\
     Auth.findOne_rejects e = false /\
     Auth.signup_lookup e users body =
       Normal (inr {| Auth._id := Auth.new_id e; Auth.email := em;
                      Auth.hashed_password := bcrypt_hash pw 10 (Auth.salt e) |})).
Proof.
  destruct body as [[email password]|]; [|by left]. right. unfold Auth.signup_lookup.
  destruct (falsy email || falsy password) eqn:Hfalsy; [left; eexists; split; [done|status_in]|].
  apply orb_false_iff in Hfalsy as [(em & -> & Hem)%falsy_Some_false
                                     (pw & -> & Hpw)%falsy_Some_false].
  cbn [default id]. unfold Auth.AdminUser_findOne.
  destruct (Auth.findOne_rejects e) eqn:Hfind;
    cbn [try_catch mbind Completion_bind mret Completion_ret];
    [left; eexists; split; [done|status_in]|].
  destruct (List.find _ users) as [u|] eqn:Hu;
    cbn [try_catch mbind Completion_bind mret Completion_ret];
    [left; eexists; split; [done|status_in]|].
  right. exists em, pw. split_and!; try done. by apply find_email_None.
Qed.

Lemma signup_save_cases e users user :
  (Auth.save_rejects e = true /\
   Auth.signup_save e users user
     = (Auth.reply 500 (Auth.Json_message "Server error"), users)) \/
  (Auth.save_rejects e = false /\
   Auth.signup_save e users user
     = (Auth.reply 201 (Auth.Json_user (Auth._id user) (Auth.email user)),
        (users ++ [user])%list)).
Proof.
  unfold Auth.signup_save, Auth.AdminUser_save.
  destruct (Auth.save_rejects e); [by left|by right].
Qed.

(** Signup with nothing in between: no parsed body and the handler's
    promise rejects; a reply 400, 409 or 500 and the records as they were;
    or the one record appended that it answers 201 for. *)
Lemma signup_cases e users body :
  (body = None /\ Auth.signup e users body = Throw) \/
  (exists r, Auth.signup e users body = Normal (r, users) /\
     Auth.status r ∈ [400; 409; 500]) \/
  (exists em pw,
     body = Some (Some em, Some pw) /\ em <> "" /\ pw <> "" /\
     (forall u, u ∈ users -> Auth.email u <> em) /\
     Auth.findOne_rejects e = false /\ Auth.save_rejects e = false /\
     Auth.signup e users body =
       Normal (Auth.reply 201 (Auth.Json_user (Auth.new_id e) em),
               (users ++ [{| Auth._id := Auth.new_id e; Auth.email := em;
                             Auth.hashed_password := bcrypt_hash pw 10 (Auth.salt e) |}])%list)).
Proof.
  unfold Auth.signup.
  destruct (signup_lookup_cases e users body)
    as [(-> & ->)|[(r & -> & Hr)|(em & pw & -> & Hem & Hpw & Hnone & Hfind & ->)]];
    cbn [mbind Completion_bind mret Completion_ret].
  - by left.
  - right; left. eauto.
  - right. match goal with |- context [Auth.signup_save e users ?u] =>
      destruct (signup_save_cases e users u) as [(Hsave & ->)|(Hsave & ->)] end.
    + left. eexists. split; [done|status_in].
    + right. exists em, pw. done.
Qed.

(** [POST /auth/signup], with no other request's save between its lookup and
    its save.  With no parsed body the destructuring of [req.body] throws
    before the [try] and the handler's promise rejects.  With a body, a
    missing or empty email or password is answered 400, and an email some
    record already carries is answered 409 when the lookup answers.  The
    replies are 201, 400, 409 and 500; with any reply but 201 the records
    are left as they were, and a reply 201 means that no record carried the
    email and that exactly one record was appended: the new id, the email as
    given, and the bcrypt hash of the password with cost 10. *)
Theorem signup_outcomes e users body :
  (body = None -> Auth.signup e users body = Throw) /\
  (forall email password, body = Some (email, password) ->
     (email = None \/ email = Some "") \/ (password = None \/ password = Some "") ->
     Auth.signup e users body
       = Normal (Auth.reply 400 (Auth.Json_message "Email and password required"), users)) /\
  (forall u pw, body = Some (Some (Auth.email u), Some pw) ->
     Auth.email u <> "" -> pw <> "" ->
     Auth.findOne_rejects e = false -> u ∈ users ->
     Auth.signup e users body
       = Normal (Auth.reply 409 (Auth.Json_message "User already exists"), users)) /\
  (forall r users', Auth.signup e users body = Normal (r, users') ->
     Auth.status r ∈ [201; 400; 409; 500] /\
     (Auth.status r <> 201 -> users' = users) /\
     (Auth.status r = 201 ->
        exists em pw,
          body = Some (Some em, Some pw) /\ em <> "" /\ pw <> "" /\
          (forall u, u ∈ users -> Auth.email u <> em) /\
          r = Auth.reply 201 (Auth.Json_user (Auth.new_id e) em) /\
          users' = (users ++ [{| Auth._id := Auth.new_id e; Auth.email := em;
                                 Auth.hashed_password :=
                                   bcrypt_hash pw 10 (Auth.salt e) |}])%list)).
Proof.
  split_and!.
  - by intros ->.
  - intros email password -> Hmissing. unfold Auth.signup, Auth.signup_lookup.
    replace (falsy email || falsy password) with true; [done|].
    symmetry. destruct Hmissing as [[-> | ->]|[-> | ->]]; cbn [falsy];
      rewrite ?bool_decide_eq_true_2 by done; by rewrite ?orb_true_r.
  - intros u pw -> Hem Hpw Hfind Hu.
    unfold Auth.signup, Auth.signup_lookup, Auth.AdminUser_findOne. cbn [falsy].
    rewrite !bool_decide_eq_false_2 by done. rewrite Hfind. cbn [orb default id].
    destruct (List.find _ users) as [u'|] eqn:Hu'; [done|].
    exfalso. by apply (proj1 (find_email_None _ _) Hu' u).
  - intros r users' Hsignup.
    destruct (signup_cases e users body)
      as [(_ & Hthrow)|[(r0 & Hreply & Hr)
                       |(em & pw & Hbody & Hem & Hpw & Hnone & _ & _ & Hreply)]];
      rewrite Hsignup in *; simplify_eq.
    + split_and!; [revert Hr; rewrite !elem_of_cons; tauto|done|].
      intros H201. rewrite H201, !elem_of_cons, elem_of_nil in Hr. lia.
    + cbn [Auth.status Auth.reply]. split_and!; [status_in|done|].
      intros _. exists em, pw. done.
Qed.

(** One request handled alone, from a server with no signup in flight:
    none is in flight afterwards, and the records are as before or followed
    by one record whose email none of them carried. *)
Lemma alone_cases s e req :
  Auth.in_flight s = [] ->
  let s' := (Auth.run JWT_SECRET s [Auth.Arrives e req; Auth.Saves 0]).2 in
  Auth.in_flight s' = [] /\
  (Auth.users s' = Auth.users s \/
   exists u, (forall u', u' ∈ Auth.users s -> Auth.email u' <> Auth.email u) /\
     Auth.users s' = (Auth.users s ++ [u])%list).
Proof.
  intros Hnone. cbv zeta. cbn [Auth.run]. destruct req as [body|body]; cbn [Auth.step].
  - destruct (signup_lookup_cases e (Auth.users s) body)
      as [(_ & ->)|[(r & -> & _)|(em & pw & _ & _ & _ & Hfree & _ & ->)]].
    + rewrite Hnone. cbn. by split; [|left].
    + rewrite Hnone. cbn. by split; [|left].
    + rewrite Hnone. cbn [Auth.users Auth.in_flight app lookup list_lookup].
      match goal with |- context [Auth.signup_save e (Auth.users s) ?u] =>
        destruct (signup_save_cases e (Auth.users s) u) as [(_ & ->)|(_ & ->)] end;
        cbn [snd Auth.users Auth.in_flight delete list_delete].
      * by split; [|left].
      * split; [done|]. right. eexists. split; [|done]. exact Hfree.
  - rewrite Hnone. cbn. by split; [|left].
Qed.

Lemma run_app s evs1 evs2 :
  (Auth.run JWT_SECRET s (evs1 ++ evs2)).2
    = (Auth.run JWT_SECRET (Auth.run JWT_SECRET s evs1).2 evs2).2.
Proof.
  revert s. induction evs1 as [|ev evs1 IH]; intros s; [done|].
  cbn [app Auth.run]. destruct (Auth.step JWT_SECRET s ev) as [o s1].
  specialize (IH s1). destruct (Auth.run JWT_SECRET s1 (evs1 ++ evs2)) as [os s2].
  destruct (Auth.run JWT_SECRET s1 evs1) as [os1 s3]. exact IH.
Qed.

Lemma signup_lookup_free e users em pw :
  em <> "" -> pw <> "" ->
  (forall u, u ∈ users -> Auth.email u <> em) ->
  Auth.findOne_rejects e = false ->
  Auth.signup_lookup e users (Some (Some em, Some pw))
    = Normal (inr {| Auth._id := Auth.new_id e; Auth.email := em;
                     Auth.hashed_password := bcrypt_hash pw 10 (Auth.salt e) |}).
Proof.
  intros Hem Hpw Hfree Hfind. unfold Auth.signup_lookup, Auth.AdminUser_findOne. cbn [falsy].
  rewrite !bool_decide_eq_false_2 by done. rewrite Hfind. cbn [orb default id].
  by rewrite (proj2 (find_email_None _ _) Hfree).
Qed.

(** The duplicate check and the save of a signup are separate awaits.
    Handled one at a time, signups and logins keep emails unique: from
    records no two of which share an email, with any clocks and store
    faults, the records afterwards are the old ones followed by new ones and
    no two share an email.  Two signups with the same free email that
    overlap, both arriving before either saves, both pass the lookup; when
    the store accepts both saves, both are answered 201 and two records
    carry the email. *)
Theorem emails_unique_unless_signups_overlap :
  (forall users reqs,
     NoDup (Auth.email <$> users) ->
     let s' := (Auth.run JWT_SECRET {| Auth.users := users; Auth.in_flight := [] |}
                  (Auth.one_at_a_time reqs)).2 in
     NoDup (Auth.email <$> Auth.users s') /\
     Auth.in_flight s' = [] /\
     exists new, Auth.users s' = (users ++ new)%list) /\
  (forall users e1 e2 em pw1 pw2,
     em <> "" -> pw1 <> "" -> pw2 <> "" ->
     (forall u, u ∈ users -> Auth.email u <> em) ->
     Auth.findOne_rejects e1 = false -> Auth.findOne_rejects e2 = false ->
     Auth.save_rejects e1 = false -> Auth.save_rejects e2 = false ->
     let u1 := {| Auth._id := Auth.new_id e1; Auth.email := em;
                  Auth.hashed_password := bcrypt_hash pw1 10 (Auth.salt e1) |} in
     let u2 := {| Auth._id := Auth.new_id e2; Auth.email := em;
                  Auth.hashed_password := bcrypt_hash pw2 10 (Auth.salt e2) |} in
     Auth.run JWT_SECRET {| Auth.users := users; Auth.in_flight := [] |}
       [ Auth.Arrives e1 (Auth.POST_signup (Some (Some em, Some pw1)));
         Auth.Arrives e2 (Auth.POST_signup (Some (Some em, Some pw2)));
         Auth.Saves 0; Auth.Saves 0 ]
     = ( [ None; None;
           Some (Normal (Auth.reply 201 (Auth.Json_user (Auth.new_id e1) em)));
           Some (Normal (Auth.reply 201 (Auth.Json_user (Auth.new_id e2) em))) ],
         {| Auth.users := ((users ++ [u1]) ++ [u2])%list; Auth.in_flight := [] |} ) /\
     ~ NoDup (Auth.email <$> ((users ++ [u1]) ++ [u2])%list)).
Proof.
  split.
  - intros users reqs. revert users.
    induction reqs as [|[e req] rest IH]; intros users Hnodup; cbv zeta.
    { cbn. split_and!; [done|done|]. exists []. by rewrite app_nil_r. }
    change (Auth.one_at_a_time ((e, req) :: rest))
      with ([Auth.Arrives e req; Auth.Saves 0] ++ Auth.one_at_a_time rest)%list.
    rewrite run_app.
    pose proof (alone_cases {| Auth.users := users; Auth.in_flight := [] |} e req eq_refl)
      as [Hflight Husers].
    destruct (Auth.run JWT_SECRET _ [Auth.Arrives e req; Auth.Saves 0]) as [os [users1 flight1]].
    cbn [snd Auth.users Auth.in_flight] in Hflight, Husers |- *. subst flight1.
    assert (Hnodup1 : NoDup (Auth.email <$> users1)).
    { destruct Husers as [->|(u & Hfree & ->)]; [done|].
      rewrite fmap_app. cbn [fmap list_fmap]. apply list.NoDup_app. split_and!; [done| |].
      - intros em (u' & -> & Hu')%list_elem_of_fmap [Heq|[]%elem_of_nil]%elem_of_cons.
        by apply (Hfree u').
      - apply NoDup_singleton. }
    destruct (IH users1 Hnodup1) as (Hnd & Hfl & new & Hnew). split_and!; [done|done|].
    rewrite Hnew. destruct Husers as [->|(u & _ & ->)]; [eauto|].
    exists (u :: new). by rewrite <- app_assoc.
  - intros users e1 e2 em pw1 pw2 Hem Hpw1 Hpw2 Hfree Hfind1 Hfind2 Hsave1 Hsave2. cbv zeta.
    split.
    + set (u1 := {| Auth._id := Auth.new_id e1; Auth.email := em;
                    Auth.hashed_password := bcrypt_hash pw1 10 (Auth.salt e1) |}).
      set (u2 := {| Auth._id := Auth.new_id e2; Auth.email := em;
                    Auth.hashed_password := bcrypt_hash pw2 10 (Auth.salt e2) |}).
      assert (Harrive : forall e pw flight,
        pw <> "" -> Auth.findOne_rejects e = false ->
        Auth.step JWT_SECRET {| Auth.users := users; Auth.in_flight := flight |}
          (Auth.Arrives e (Auth.POST_signup (Some (Some em, Some pw))))
        = (None, {| Auth.users := users;
                    Auth.in_flight := (flight ++
                      [(e, {| Auth._id := Auth.new_id e; Auth.email := em;
                              Auth.hashed_password :=
                                bcrypt_hash pw 10 (Auth.salt e) |})])%list |})).
      { intros e pw flight Hpw Hfind. cbn [Auth.step Auth.users Auth.in_flight].
        by rewrite signup_lookup_free. }
      assert (Hsaves : forall e u users0 flight,
        Auth.save_rejects e = false ->
        Auth.step JWT_SECRET {| Auth.users := users0; Auth.in_flight := (e, u) :: flight |}
          (Auth.Saves 0)
        = (Some (Normal (Auth.reply 201 (Auth.Json_user (Auth._id u) (Auth.email u)))),
           {| Auth.users := (users0 ++ [u])%list; Auth.in_flight := flight |})).
      { intros e u users0 flight Hsave.
        cbn [Auth.step Auth.users Auth.in_flight lookup list_lookup].
        unfold Auth.signup_save, Auth.AdminUser_save. by rewrite Hsave. }
      cbn [Auth.run]. rewrite (Harrive e1 pw1 []) by done. cbn [app].
      rewrite (Harrive e2 pw2) by done. cbn [app].
      rewrite (Hsaves e1) by done. rewrite (Hsaves e2) by done. done.
    + rewrite !fmap_app. cbn [fmap list_fmap Auth.email].
      intros (_ & Hapart & _)%list.NoDup_app.
      apply (Hapart em); [apply elem_of_app; right; left|left].
Qed.

Lemma login_token e users body r token :
  Auth.login JWT_SECRET e users body = Normal r ->
  Auth.body r = Auth.Json_token token ->
  Auth.status r = 200 /\ JWT_SECRET <> "" /\
  exists u em pw,
    body = Some (Some em, Some pw) /\ em <> "" /\ pw <> "" /\
    u ∈ users /\ Auth.email u = em /\
    bcrypt_compare pw (Auth.hashed_password u) = true /\
    jwt_sign (<["email" := JStr (Auth.email u)]> {["id" := JStr (Auth._id u)]})
      JWT_SECRET expiresIn_1h (Auth.now e) = Normal token.
Proof.
  destruct body as [[email password]|]; [|done]. unfold Auth.login. intros [= <-].
  destruct (falsy email || falsy password) eqn:Hfalsy; [done|].
  apply orb_false_iff in Hfalsy as [(em & -> & Hem)%falsy_Some_false
                                     (pw & -> & Hpw)%falsy_Some_false].
  cbn [default id]. unfold Auth.AdminUser_findOne.
  destruct (Auth.findOne_rejects e); [done|]. cbn [mbind Completion_bind].
  destruct (List.find _ users) as [u|] eqn:Hu; [|done].
  apply find_email_Some in Hu as [Hin Hmail].
  destruct (bcrypt_compare pw (Auth.hashed_password u)) eqn:Hcmp; [|done].
  cbn [negb]. destruct (jwt_sign _ JWT_SECRET _ _) as [token'|] eqn:Hsign; [|done].
  cbn [try_catch mbind Completion_bind mret Completion_ret Auth.reply Auth.body Auth.status].
  intros [= <-]. split; [done|]. split.
  - intros ->. unfold jwt_sign in Hsign. done.
  - exists u, em, pw. done.
Qed.


(** The session a signup opens: after a signup answered 201, a login with
    the same email and password against the records it left (the lookup
    answering, [JWT_SECRET] set) is answered 200 with a token; when
    [JWT_SECRET] is the secret the middleware verifies with, that token, sent
    as the second word of the Authorization header, authenticates with the
    claims [{id, email, iat, exp}] of the new record at every instant before
    [iat] plus one hour, and is answered 403 from that instant on. *)
Theorem signup_login_session users e1 e2 email password r users' :
  Auth.signup e1 users (Some (email, password)) = Normal (r, users') ->
  Auth.status r = 201 ->
  Auth.findOne_rejects e2 = false ->
  JWT_SECRET <> "" ->
  JWT_SECRET = jwtSecret cfg ->
  let iat := (Auth.now e2 / 1000)%Z in
  let claims : gmap string JsVal :=
    <["exp" := JNum (iat + 3600)]> (<["iat" := JNum iat]>
      (<["email" := JStr (default "" email)]> {["id" := JStr (Auth.new_id e1)]})) in
  exists token,
    Auth.login JWT_SECRET e2 users' (Some (email, password))
      = Normal (Auth.reply 200 (Auth.Json_token token)) /\
    (forall e3 scheme, has_space scheme = false ->
       (now e3 < (iat + 3600) * 1000)%Z ->
       authenticateToken cfg e3 (Some (scheme +:+ " " +:+ token)) = inr claims) /\
    (forall e3 scheme, has_space scheme = false ->
       ((iat + 3600) * 1000 <= now e3)%Z ->
       authenticateToken cfg e3 (Some (scheme +:+ " " +:+ token))
         = inl (reply 403 (Json_message "Forbidden: Invalid token"))).
Proof.
  intros Hsignup H201 Hfind Hsecret Hsame. cbv zeta.
  destruct (signup_cases e1 users (Some (email, password)))
    as [([=] & _)|[(r0 & Hreply & Hr)
                  |(em & pw & Hbody & Hem & Hpw & Hnone & _ & _ & Hreply)]];
    rewrite Hsignup in Hreply.
  { injection Hreply as -> _. rewrite H201, !elem_of_cons, elem_of_nil in Hr. lia. }
  injection Hbody as -> ->. injection Hreply as -> ->. cbn [default].
  set (u := {| Auth._id := Auth.new_id e1; Auth.email := em;
               Auth.hashed_password := bcrypt_hash pw 10 (Auth.salt e1) |}).
  set (payload := <["email" := JStr em]> ({["id" := JStr (Auth.new_id e1)]} : gmap string JsVal)).
  destruct (jwt_sign payload JWT_SECRET expiresIn_1h (Auth.now e2)) as [token|] eqn:Hsign;
    [|unfold jwt_sign in Hsign; by rewrite bool_decide_eq_false_2 in Hsign].
  assert (Hverify : forall t',
    jwt_verify token (jwtSecret cfg) t' =
      if (Auth.now e2 / 1000 + 3600 <=? t' / 1000)%Z then inl TokenExpiredError
      else inr (<["exp" := JNum (Auth.now e2 / 1000 + 3600)]>
                  (<["iat" := JNum (Auth.now e2 / 1000)]> payload))).
  { intros t'. rewrite <- Hsame. apply (jwt_verify_signed payload); [|exact Hsign].
    unfold payload. by simplify_map_eq. }
  assert (Htoken : token <> "" /\ has_space token = false).
  { apply (jwt_verify_ok token (jwtSecret cfg) (Auth.now e2)
             (<["exp" := JNum (Auth.now e2 / 1000 + 3600)]>
                (<["iat" := JNum (Auth.now e2 / 1000)]> payload))).
    rewrite Hverify. destruct (Z.leb_spec (Auth.now e2 / 1000 + 3600) (Auth.now e2 / 1000));
      [lia|done]. }
  destruct Htoken as [Hne Hnospace].
  exists token. split_and!.
  - unfold Auth.login, Auth.AdminUser_findOne. cbn [falsy].
    rewrite !bool_decide_eq_false_2 by done.
    rewrite Hfind. cbn [orb default id mbind Completion_bind].
    assert (Hfound : List.find (fun u' => bool_decide (Auth.email u' = em)) (users ++ [u])%list
                     = Some u) by exact (find_email_snoc users u Hnone).
    rewrite Hfound.
    cbn [Auth.hashed_password Auth.email Auth._id u]. rewrite compare_hash. cbn [negb].
    fold payload. by rewrite Hsign.
  - intros e3 scheme Hscheme Hlt. rewrite authenticateToken_segment.
    rewrite (split_scheme_token _ _ Hscheme Hnospace).
    rewrite bool_decide_eq_false_2 by done. rewrite Hverify.
    destruct (Z.leb_spec (Auth.now e2 / 1000 + 3600) (now e3 / 1000)) as [Hle|_]; [|done].
    assert (now e3 / 1000 < Auth.now e2 / 1000 + 3600)%Z by (apply seconds_before; lia). lia.
  - intros e3 scheme Hscheme Hge. rewrite authenticateToken_segment.
    rewrite (split_scheme_token _ _ Hscheme Hnospace).
    rewrite bool_decide_eq_false_2 by done. rewrite Hverify.
    destruct (Z.leb_spec (Auth.now e2 / 1000 + 3600) (now e3 / 1000)) as [_|Hlt]; [done|].
    apply seconds_before in Hlt. lia.
Qed.

(** The two kinds of token are told apart by their secrets alone: neither
    verifier looks at what a token is for.  Where [STREAM_TOKEN_SECRET] is
    the same string as [JWT_SECRET], a login token redeemed at
    [GET /stream/:token] is granted for its hour, with [undefined] for the
    file; where the middleware's secret is the same string as
    [STREAM_TOKEN_SECRET], a link token sent as a session credential
    authenticates for its ten minutes, with the claims of the link. *)
Theorem tokens_told_apart_by_secret_only :
  (forall e users body token e2,
     STREAM_TOKEN_SECRET cfg = JWT_SECRET ->
     Auth.login JWT_SECRET e users body
       = Normal (Auth.reply 200 (Auth.Json_token token)) ->
     (now e2 < (Auth.now e / 1000 + 3600) * 1000)%Z ->
     get_stream cfg e2 token
       = reply 200 (Send "Access granted to stream file: undefined")) /\
  (forall st e id token st' e2 scheme,
     jwtSecret cfg = STREAM_TOKEN_SECRET cfg ->
     handle cfg st e (GET_stream_url id)
       = (Normal (reply 200 (Json_stream_url
            ("http://localhost:" +:+ PORT cfg +:+ "/stream/" +:+ token))), st') ->
     has_space scheme = false ->
     (now e2 < (now e / 1000 + 600) * 1000)%Z ->
     exists media user,
       MediaAsset_findById (faults e) (db st) id = Normal (Some media) /\
       authenticateToken cfg e2 (Some (scheme +:+ " " +:+ token)) = inr user /\
       user !! "mediaId" = Some (JStr (_id media)) /\
       user !! "fileUrl" = Some (JStr (file_url media))).
Proof.
  split.
  - intros e users body token e2 Hsame Hlogin Hlt.
    destruct (login_token _ _ _ _ token Hlogin eq_refl)
      as (_ & _ & u & em & pw & _ & _ & _ & _ & _ & _ & Hsign).
    unfold get_stream. rewrite Hsame.
    rewrite (fun Hnbf => jwt_verify_signed _ _ _ _ _ (now e2) Hnbf Hsign)
      by (by simplify_map_eq).
    destruct (Z.leb_spec (Auth.now e / 1000 + expiresIn_1h) (now e2 / 1000)) as [Hle|_].
    + assert (now e2 / 1000 < Auth.now e / 1000 + 3600)%Z by (apply seconds_before; lia).
      unfold expiresIn_1h in Hle. lia.
    + by simplify_map_eq.
  - intros st e id token st' e2 scheme Hsame Hh Hscheme Hlt. cbn [handle] in Hh.
    destruct (get_stream_url_cases cfg e (db st) id)
      as [(m & Hg)|[(m & Hg)|[Hg|(media & token' & Hf & Hs & _ & Hg)]]];
      rewrite Hg in Hh; unfold reply in Hh; simplify_eq.
    assert (Hverify : jwt_verify token (jwtSecret cfg) (now e2) =
      inr (<["exp" := JNum (now e / 1000 + expiresIn_10m)]>
             (<["iat" := JNum (now e / 1000)]>
                (<["fileUrl" := JStr (file_url media)]> {["mediaId" := JStr (_id media)]})))).
    { rewrite Hsame.
      rewrite (fun Hnbf => jwt_verify_signed _ _ _ _ _ (now e2) Hnbf Hs)
        by (by simplify_map_eq).
      destruct (Z.leb_spec (now e / 1000 + expiresIn_10m) (now e2 / 1000)) as [Hle|_]; [|done].
      assert (now e2 / 1000 < now e / 1000 + 600)%Z by (apply seconds_before; lia).
      unfold expiresIn_10m in Hle. lia. }
    destruct (jwt_verify_ok _ _ _ _ Hverify) as [Hne Hnospace].
    eexists media, _. split; [done|]. split.
    + rewrite authenticateToken_segment, (split_scheme_token _ _ Hscheme Hnospace).
      rewrite bool_decide_eq_false_2 by done. by rewrite Hverify.
    + split; by simplify_map_eq.
Qed.

End Credentials.

(** ** How the routes compose *)

Section Composition.
Context `{JwtCodec} `{ObjectIdCast} {limiter_key : KeyGenerator}.
Variable cfg : Config.

(** One more row: one more view, one more address unless the row's address
    is among the rows already, and one more under the row's key. *)
Lemma summarize_snoc_exact logs l :
  summarize (logs ++ [l])%list =
    {| total_views := total_views (summarize logs) + 1;
       unique_ips := unique_ips (summarize logs) +
         (if bool_decide (viewed_by_ip l ∈ viewed_by_ip <$> logs) then 0 else 1);
       views_per_day :=
         <[day_key l := default 0 (views_per_day (summarize logs) !! day_key l) + 1]>
           (views_per_day (summarize logs)) |}.
Proof.
  unfold summarize. cbn [total_views unique_ips views_per_day]. f_equal.
  - rewrite length_app. done.
  - rewrite fmap_app, list_to_set_app_L. cbn [fmap list_fmap list_to_set].
    rewrite (right_id_L ∅ (∪)). case_bool_decide as Hin.
    + rewrite Nat.add_0_r. f_equal. apply (anti_symm (⊆)).
      * apply union_least; [done|]. apply singleton_subseteq_l.
        by apply elem_of_list_to_set.
      * apply union_subseteq_l.
    + rewrite size_union, size_singleton; [done|].
      apply disjoint_singleton_r. by rewrite elem_of_list_to_set.
  - rewrite foldl_app. done.
Qed.

Lemma find_snoc {A} (f : A -> bool) (l : list A) x :
  (forall y, y ∈ l -> f y = false) -> f x = true ->
  List.find f (l ++ [x])%list = Some x.
Proof.
  intros Hnone Hx. induction l as [|y l IH]; cbn [List.find app].
  - by rewrite Hx.
  - rewrite (Hnone y) by left. apply IH. intros z Hz. apply Hnone. by right.
Qed.

(** A view answered 201 and a link answered 200 count alike, and exactly
    once: the next analytics reply for the asset has one more view, one more
    address unless the caller's address had a row of the asset already, one
    more under the key of the request's instant, and every other day as it
    was. *)
Theorem accepted_view_adds_one st e req e1 a1 id s st1 :
  handle cfg st e1 (GET_analytics a1 id) = (Normal (reply 200 (Json_summary s)), st1) ->
  logged req (handle cfg st e req).1 = true ->
  (forall id', view_target req = Some id' -> castObjectId id' = castObjectId id) ->
  exists media,
    MediaAsset_findById (faults e1) (db st) id = Normal (Some media) /\
    let day := slice0 10 (toISOString (now e)) in
    let known := bool_decide (ip e ∈ viewed_by_ip <$> logs_of (_id media) (db st)) in
    handle cfg (handle cfg st e req).2 e1 (GET_analytics a1 id)
      = (Normal (reply 200 (Json_summary
           {| total_views := total_views s + 1;
              unique_ips := unique_ips s + (if known then 0 else 1);
              views_per_day :=
                <[day := default 0 (views_per_day s !! day) + 1]> (views_per_day s) |})),
         (handle cfg st e req).2).
Proof.
  intros Hfirst Hlogged Hsame.
  destruct (authenticated_analytics _ _ _ _ _ _ _ Hfirst) as [user Hauth].
  apply handle_analytics_200 in Hfirst as [_ Hget].
  apply get_analytics_200 in Hget as (media & Hf & Hfind & ->).
  pose proof (findById_Some _ _ _ _ Hf) as (Hrej & Hcast & _ & _).
  exists media. split; [done|]. cbv zeta.
  pose proof (handle_store_cases cfg st e req) as Hstep. cbv zeta in Hstep.
  destruct Hstep as [(Hl & _)|[(Hl & _)|(_ & _ & id' & media' & Ht & Hf2 & Hd)]];
    [congruence..|].
  pose proof (findById_Some _ _ _ _ Hf2) as (_ & Hcast' & _ & _).
  assert (Hid : _id media' = _id media).
  { specialize (Hsame id' Ht). congruence. }
  set (st' := (handle cfg st e req).2) in *.
  assert (Hf' : MediaAsset_findById (faults e1) (db st') id = Normal (Some media)).
  { unfold MediaAsset_findById in Hf |- *. rewrite Hrej, Hcast in Hf |- *. by rewrite Hd. }
  cbn [handle]. rewrite Hauth, (get_analytics_found _ _ _ _ Hf' Hfind), Hd.
  rewrite logs_of_with_log. cbn [media_id].
  rewrite bool_decide_eq_true_2 by done. by rewrite summarize_snoc_exact.
Qed.

(** From registration to playback: after [POST /media] answered 201 with a
    new id no stored asset carries, a stream-url request for that id (the
    store answering, the stream secret set) is answered 200 with a link, and
    redeeming the link's token at any instant before its ten minutes are over
    grants the [file_url] given at registration. *)
Theorem registered_asset_streams st e a title type url media st1 e2 id :
  handle cfg st e (POST_media a (Some (title, type, url)))
    = (Normal (reply 201 (Json_media media)), st1) ->
  (forall a', a' ∈ mediaassets (db st) -> _id a' <> new_id e) ->
  castObjectId id = Some (new_id e) ->
  STREAM_TOKEN_SECRET cfg <> "" ->
  findById_rejects (faults e2) = false ->
  save_rejects (faults e2) = false ->
  exists token st2,
    file_url media = default "" url /\
    handle cfg st1 e2 (GET_stream_url id)
      = (Normal (reply 200 (Json_stream_url
           ("http://localhost:" +:+ PORT cfg +:+ "/stream/" +:+ token))), st2) /\
    forall e3, (now e3 < (now e2 / 1000 + 600) * 1000)%Z ->
      get_stream cfg e3 token
        = reply 200 (Send ("Access granted to stream file: " +:+ default "" url)).
Proof.
  intros Hpost Hfresh Hcast Hsecret Hfind Hsave.
  destruct (handle_media_cases cfg st e a (Some (title, type, url)))
    as [(r & Hh & Hr)|[(user & _ & [=] & _)
                      |(t & ty & u & Hbody & _ & _ & _ & _ & Hh)]];
    cbv zeta in Hh; rewrite Hpost in Hh.
  { injection Hh as <- _. cbn in Hr. lia. }
  injection Hbody as -> -> ->. injection Hh as -> ->. cbn [default].
  set (media := {| _id := new_id e; title := t; type := ty; file_url := u |}).
  set (payload := <["fileUrl" := JStr (file_url media)]>
                    ({["mediaId" := JStr (_id media)]} : gmap string JsVal)).
  destruct (jwt_sign payload (STREAM_TOKEN_SECRET cfg) expiresIn_10m (now e2))
    as [token|] eqn:Hsign;
    [|unfold jwt_sign in Hsign; by rewrite bool_decide_eq_false_2 in Hsign].
  exists token. eexists. split; [done|]. split.
  - cbn [handle db hits]. unfold get_stream_url, isValid, MediaAsset_findById, MediaViewLog_save.
    rewrite Hcast, Hfind, Hsave. cbn [negb mbind Completion_bind mediaassets].
    rewrite (find_snoc _ _ media).
    + fold payload. rewrite Hsign. done.
    + intros a' Ha'. apply bool_decide_eq_false. by apply Hfresh.
    + by apply bool_decide_eq_true.
  - intros e3 Hlt. unfold get_stream.
    rewrite (fun Hnbf => jwt_verify_signed _ _ _ _ _ (now e3) Hnbf Hsign)
      by (unfold payload; by simplify_map_eq).
    destruct (Z.leb_spec (now e2 / 1000 + expiresIn_10m) (now e3 / 1000)) as [Hle|_].
    + assert (now e3 / 1000 < now e2 / 1000 + 600)%Z by (apply seconds_before; lia).
      unfold expiresIn_10m in Hle. lia.
    + unfold payload. by simplify_map_eq.
Qed.

(** When a handler ends without sending a reply.  There are two ways, both
    an operation that stands outside any [try]: an authenticated
    [POST /media] with no parsed body, where reading the fields of
    [req.body] throws; and a view or analytics call that is authenticated
    (and, for a view, let through by the limiter), names a valid id, and
    whose asset lookup rejects.  Every other request is replied to by its
    handler, every stream-url call among them, and a request left without a
    reply leaves the store as it was. *)
Theorem unanswered_requests st e req :
  ((handle cfg st e req).1 = Throw <->
   exists a user,
     authenticateToken cfg e a = inr user /\
     (req = POST_media a None \/
      exists id,
        isValid id = true /\
        findById_rejects (faults e) = true /\
        ((req = POST_view a id /\
          (viewRateLimiter (hits st) (ip e) (now e)).1 = true) \/
         req = GET_analytics a id))) /\
  ((handle cfg st e req).1 = Throw -> db (handle cfg st e req).2 = db st).
Proof.
  split; cycle 1.
  { pose proof (handle_store_cases cfg st e req) as Hstep. cbv zeta in Hstep.
    intros Hthrow. rewrite Hthrow in Hstep.
    destruct Hstep as [(_ & _ & Hd)|[(_ & Hr & _)|(Hl & _)]]; [done| |];
      by destruct req. }
  assert (Hlookup : forall d id, isValid id = true ->
    MediaAsset_findById (faults e) d id = Throw <-> findById_rejects (faults e) = true).
  { intros d id. unfold isValid, MediaAsset_findById.
    destruct (castObjectId id); [|done]. intros _.
    by destruct (findById_rejects (faults e)). }
  assert (Hview : forall d id, post_view e d id = Throw <->
    isValid id = true /\ findById_rejects (faults e) = true).
  { intros d id. unfold post_view. destruct (isValid id) eqn:Hvalid; cbn [negb].
    - rewrite <- (Hlookup d id Hvalid).
      destruct (MediaAsset_findById (faults e) d id) as [[media|]|];
        cbn [mbind Completion_bind]; split; intros; by destruct_and?.
    - split; intros; by destruct_and?. }
  assert (Hanalytics : forall d id, get_analytics e d id = Throw <->
    isValid id = true /\ findById_rejects (faults e) = true).
  { intros d id. unfold get_analytics. destruct (isValid id) eqn:Hvalid; cbn [negb].
    - rewrite <- (Hlookup d id Hvalid).
      destruct (MediaAsset_findById (faults e) d id) as [[media|]|];
        cbn [mbind Completion_bind]; split; intros; by destruct_and?.
    - split; intros; by destruct_and?. }
  destruct req as [authorization body|id|token|authorization id|authorization id];
    cbn [handle].
  - destruct (authenticateToken cfg e authorization) as [r|user] eqn:Hauth.
    { split; [done|].
      intros (a & user & Hauth' & [[= <- _]|(id & _ & _ & [[[=] _]|[=]])]). congruence. }
    destruct body as [fields|].
    + destruct (post_media_cases e (db st) (Some fields))
        as [([=] & _)|[(r & -> & _)|(t & ty & u & _ & _ & _ & _ & _ & ->)]]; cbn [fst].
      * split; [done|].
        intros (a & user' & _ & [[=]|(id & _ & _ & [[[=] _]|[=]])]).
      * split; [done|].
        intros (a & user' & _ & [[=]|(id & _ & _ & [[[=] _]|[=]])]).
    + cbn [post_media fst]. split; [|done]. intros _.
      exists authorization, user. split; [done|]. by left.
  - split.
    + by destruct (get_stream_url cfg e (db st) id).
    + intros (a & user & _ & [[=]|(id' & _ & _ & [[[=] _]|[=]])]).
  - split; [done|]. intros (a & user & _ & [[=]|(id' & _ & _ & [[[=] _]|[=]])]).
  - destruct (authenticateToken cfg e authorization) as [r|user] eqn:Hauth.
    { split; [done|].
      intros (a & user & Hauth' & [[=]|(id' & _ & _ & [[[= <- <-] _]|[=]])]). congruence. }
    destruct (viewRateLimiter (hits st) (ip e) (now e)) as [pass hits'] eqn:Hlimit.
    cbn [fst]. destruct pass.
    + specialize (Hview (db st) id).
      destruct (post_view e (db st) id) as [[r d']|]; cbn [fst].
      * split; [done|].
        intros (a & user' & _ & [[=]|(id' & Hvalid & Hrej & [[[= <- <-] _]|[=]])]).
        by pose proof (proj2 Hview (conj Hvalid Hrej)).
      * destruct (proj1 Hview eq_refl) as [Hvalid Hrej]. split; [|done]. intros _.
        exists authorization, user. split; [done|]. right. exists id.
        split_and!; try done. by left.
    + split; [done|].
      intros (a & user' & _ & [[=]|(id' & _ & _ & [[[= <- <-] [=]]|[=]])]).
  - destruct (authenticateToken cfg e authorization) as [r|user] eqn:Hauth.
    { split; [done|].
      intros (a & user & Hauth' & [[=]|(id' & _ & _ & [[[=] _]|[= <- <-]])]). congruence. }
    cbn [fst]. rewrite Hanalytics. split.
    + intros [Hvalid Hrej]. exists authorization, user. split; [done|]. right. exists id.
      split_and!; try done. by right.
    + intros (a & user' & _ & [[=]|(id' & Hvalid & Hrej & [[[=] _]|[= <- <-]])]). done.
Qed.

End Composition.

(** ** The run, checked against the claims *)

Section Witnesses.
Existing Instance binary_codec.
Existing Instance hex24.
Existing Instance address_key.

Ltac compute_eq :=
  lazymatch goal with |- _ = ?rhs => vm_cast_no_check (@eq_refl _ rhs) end.
Ltac same_elements :=
  let a := fresh "a" in
  intros a; cbv delta [ipsW daysW]; vm_compute logs_of; vm_compute fmap;
  rewrite !elem_of_cons, !elem_of_nil; intuition (subst; auto).
Ltac no_dup := apply (bool_decide_unpack _); vm_compute; exact I.
Ltac in_range := repeat constructor; unfold fourDigitYear; cbn; lia.

(** The model against outputs of the JavaScript it stands for. *)
Example toISOString_values :
  toISOString 1722470400123 = "2024-08-01T00:00:00.123Z" /\
  toISOString 951782400000 = "2000-02-29T00:00:00.000Z" /\
  toISOString (-1) = "1969-12-31T23:59:59.999Z" /\
  toISOString (-62167219200000) = "0000-01-01T00:00:00.000Z" /\
  toISOString 253402300799999 = "9999-12-31T23:59:59.999Z" /\
  toISOString 253402300800000 = "+010000-01-01T00:00:00.000Z" /\
  toISOString (-62167219200001) = "-000001-12-31T23:59:59.999Z".
Proof. split_and!; compute_eq. Qed.

Example split_values :
  split " " "Bearer abc" = ["Bearer"; "abc"] /\
  split " " "abc" = ["abc"] /\
  split " " "" = [""] /\
  split " " "Bearer  abc" = ["Bearer"; ""; "abc"] /\
  split " " " abc" = [""; "abc"].
Proof. split_and!; reflexivity. Qed.

(** No header at all, as in the first two tests of [media.test.js]. *)
Example view_without_header :
  handle cfgW stW envW (POST_view None "123456789012345678901234")
    = (Normal (reply 401 (Json_message "Unauthorized: No token provided")), stW).
Proof. reflexivity. Qed.

(** Two views from one address within the minute: 201, then 429 and no row. *)
Example second_view_is_rate_limited :
  (run cfgW stW [(envW, POST_view bearerW idW); (envW_again, POST_view bearerW idW)]).1
    = [Normal (reply 201 (Json_message "View logged")); Normal too_many] /\
  mediaviewlogs (db (run cfgW stW
    [(envW, POST_view bearerW idW); (envW_again, POST_view bearerW idW)]).2)
    = (logsW ++ [viewW])%list.
Proof. split; compute_eq. Qed.

(** The link issued at [envW] is good for its last millisecond and no longer. *)
Example stream_link_redeemed :
  get_stream cfgW envW_last streamTokenW
    = reply 200 (Send "Access granted to stream file: http://example.com/video.mp4") /\
  get_stream cfgW envW_expired streamTokenW
    = reply 403 (Send "Forbidden: Invalid or expired stream link.").
Proof. split; compute_eq. Qed.

Example YYYY_MM_DD_19936 : YYYY_MM_DD 19936 = "2024-08-01" /\ YYYY_MM_DD 19937 = "2024-08-02".
Proof. split; compute_eq. Qed.

Lemma analytics_counts_witness :
  exists s,
    handle cfgW stW envW (GET_analytics bearerW idW)
      = (Normal (reply 200 (Json_summary s)), stW) /\
    total_views s = 3 /\
    unique_ips s = 2 /\
    dom (views_per_day s) = list_to_set (YYYY_MM_DD <$> daysW) /\
    size (views_per_day s) = 2 /\
    (forall n, n ∈ daysW ->
       views_per_day s !! YYYY_MM_DD n
         = Some (length (List.filter (fun l => bool_decide (Day (timestamp l) = n)) logsW))) /\
    (forall k c, views_per_day s !! k = Some c -> 0 < c) /\
    sum_values (views_per_day s) = 3.
Proof.
  apply (analytics_counts cfgW stW envW bearerW userW idW assetW ipsW daysW).
  - compute_eq.
  - compute_eq.
  - reflexivity.
  - in_range.
  - no_dup.
  - same_elements.
  - no_dup.
  - same_elements.
Defined.

Lemma analytics_zero_views_witness :
  handle cfgW stW0 envW (GET_analytics bearerW idW)
    = (Normal (reply 200 (Json_summary
         {| total_views := 0; unique_ips := 0; views_per_day := ∅ |})), stW0).
Proof.
  apply (analytics_zero_views cfgW stW0 envW bearerW userW idW assetW).
  - compute_eq.
  - compute_eq.
  - reflexivity.
  - reflexivity.
Defined.

Lemma analytics_pure_and_monotone_witness :
  summarize logsW = summarize logsW /\ stW = stW /\ stW = stW /\
  (exists media, media ∈ mediaassets (db stW) /\
     forall logs, logs ≡ₚ logs_of (_id media) (db stW) -> summarize logsW = summarize logs) /\
  total_views (summarize (logsW ++ [viewW])) = total_views (summarize logsW) + 1 /\
  unique_ips (summarize logsW) <= unique_ips (summarize (logsW ++ [viewW])) /\
  (forall day c, views_per_day (summarize logsW) !! day = Some c ->
     exists c', views_per_day (summarize (logsW ++ [viewW])) !! day = Some c' /\ c <= c').
Proof.
  apply (analytics_pure_and_monotone cfgW stW envW envW_later envW envW_later
           bearerW bearerW bearerW bearerW idW "64d2f0c1a5b3e47f9c0d1e2a"
           (summarize logsW) (summarize logsW) (summarize (logsW ++ [viewW]))
           stW stW stW_viewed stW_viewed (reply 201 (Json_message "View logged"))).
  - compute_eq.
  - compute_eq.
  - compute_eq.
  - reflexivity.
  - compute_eq.
  - compute_eq.
Defined.

Lemma stream_token_lifetime_witness :
  exists media token j,
    MediaAsset_findById (faults envW) (db stW) idW = Normal (Some media) /\
    streamUrlW = "http://localhost:" +:+ PORT cfgW +:+ "/stream/" +:+ token /\
    parse token = Some j /\
    jws_payload j !! "fileUrl" = Some (JStr (file_url media)) /\
    jws_payload j !! "mediaId" = Some (JStr (_id media)) /\
    jws_payload j !! "iat" = Some (JNum 1722600000) /\
    jws_payload j !! "exp" = Some (JNum 1722600600) /\
    let granted := reply 200 (Send ("Access granted to stream file: " +:+ file_url media)) in
    let refused := reply 403 (Send "Forbidden: Invalid or expired stream link.") in
    (forall st2 e2, (now e2 < 1722600600000)%Z ->
       handle cfgW st2 e2 (GET_stream token) = (Normal granted, st2)) /\
    (forall st2 e2, (1722600600000 <= now e2)%Z ->
       handle cfgW st2 e2 (GET_stream token) = (Normal refused, st2)) /\
    (forall st2 (es : list Env), Forall (fun e2 => (now e2 < 1722600600000)%Z) es ->
       run cfgW st2 ((fun e2 => (e2, GET_stream token)) <$> es)
         = (replicate (length es) (Normal granted), st2)).
Proof.
  apply (stream_token_lifetime cfgW stW envW idW streamUrlW stW_linked).
  compute_eq.
Defined.

Lemma stream_url_appends_view_log_witness :
  exists media token,
    media ∈ mediaassets (db stW) /\
    MediaAsset_findById (faults envW) (db stW) idW = Normal (Some media) /\
    jwt_sign (<["fileUrl" := JStr (file_url media)]> {["mediaId" := JStr (_id media)]})
      (STREAM_TOKEN_SECRET cfgW) expiresIn_10m (now envW) = Normal token /\
    Json_stream_url streamUrlW
      = Json_stream_url ("http://localhost:" +:+ PORT cfgW +:+ "/stream/" +:+ token) /\
    mediaassets (db stW_linked) = mediaassets (db stW) /\
    mediaviewlogs (db stW_linked) =
      (mediaviewlogs (db stW) ++
       [{| media_id := _id media; viewed_by_ip := ip envW; timestamp := now envW |}])%list.
Proof.
  apply (stream_url_appends_view_log cfgW stW envW idW
           (reply 200 (Json_stream_url streamUrlW)) stW_linked).
  - compute_eq.
  - reflexivity.
Defined.

Lemma view_logs_reference_existing_assets_witness :
  (forall l, l ∈ mediaviewlogs (db stW_reached) ->
     exists a, a ∈ mediaassets (db stW_reached) /\ _id a = media_id l) /\
  (forall e req,
     mediaviewlogs (db (handle cfgW stW_reached e req).2) = mediaviewlogs (db stW_reached) \/
     exists l a,
       mediaviewlogs (db (handle cfgW stW_reached e req).2)
         = (mediaviewlogs (db stW_reached) ++ [l])%list /\
       a ∈ mediaassets (db stW_reached) /\ _id a = media_id l).
Proof.
  apply (view_logs_reference_existing_assets cfgW stW_reached).
  apply reachable_run, reachable_initial.
Defined.

(** The state reached holds the asset and the row of its one link. *)
Example stW_reached_store :
  db stW_reached =
    {| mediaassets := [ {| _id := "64d2f0c1a5b3e47f9c0d1e2b"; title := "Test Video";
                           type := "video"; file_url := "http://example.com/video.mp4" |} ];
       mediaviewlogs := [ {| media_id := "64d2f0c1a5b3e47f9c0d1e2b";
                             viewed_by_ip := "10.0.0.9"; timestamp := 1722600030000 |} ] |}.
Proof. compute_eq. Qed.

Lemma verification_failure_is_forbidden_witness :
  (forall st, handle cfgW st envW (GET_stream "invalidtoken")
     = (Normal (reply 403 (Send "Forbidden: Invalid or expired stream link.")), st)) /\
  authenticateToken cfgW envW (Some "Bearer invalidtoken")
    = inl (reply 403 (Json_message "Forbidden: Invalid token")) /\
  (forall st, handle cfgW st envW_expired (GET_stream streamTokenW)
     = (Normal (reply 403 (Send "Forbidden: Invalid or expired stream link.")), st)) /\
  authenticateToken cfgW envW (Some ("Bearer " +:+ streamTokenW))
    = inl (reply 403 (Json_message "Forbidden: Invalid token")).
Proof.
  split_and!.
  - apply (verification_failure_is_forbidden cfgW envW "invalidtoken").
    left. compute_eq.
  - apply (verification_failure_is_forbidden cfgW envW "invalidtoken");
      [left; compute_eq|compute_eq|done].
  - apply (verification_failure_is_forbidden cfgW envW_expired streamTokenW).
    right; right.
    exists {| jws_payload := streamClaimsW;
              jws_signature := hs256 "stream-secret" streamClaimsW |}, 1722600600%Z.
    split_and!; [apply parse_compact|compute_eq|cbn; lia].
  - apply (verification_failure_is_forbidden cfgW envW streamTokenW).
    + right; left.
      exists {| jws_payload := streamClaimsW;
                jws_signature := hs256 "stream-secret" streamClaimsW |}.
      split; [apply parse_compact|]. cbn [jws_signature jws_payload jwtSecret cfgW].
      vm_compute. discriminate.
    + compute_eq.
    + vm_compute. discriminate.
Defined.

Lemma authorization_second_segment_witness :
  authenticateToken cfgW envW (Some sessionW)
    = inl (reply 401 (Json_message "Unauthorized: No token provided")) /\
  authenticateToken cfgW envW (Some ("Bearer  " +:+ sessionW))
    = inl (reply 401 (Json_message "Unauthorized: No token provided")) /\
  authenticateToken cfgW envW (Some ("Basic " +:+ sessionW)) = inr userW.
Proof.
  destruct (authorization_second_segment cfgW envW) as (_ & H401 & Hbare & _ & Hany).
  split_and!.
  - apply H401. left. apply Hbare. compute_eq.
  - apply H401. right. compute_eq.
  - apply (Hany "Basic"); [reflexivity|compute_eq].
Defined.

Lemma stream_url_reply_after_append_witness :
  get_stream_url cfgW envW_save_rejects (db stW) idW
    = (reply 500 (Json_message "Server error"), db stW) /\
  (save_rejects (faults envW) = false /\
   status (get_stream_url cfgW envW (db stW) idW).1 = 200 /\
   exists media,
     (get_stream_url cfgW envW (db stW) idW).2 =
       with_log (db stW)
         {| media_id := _id media; viewed_by_ip := ip envW; timestamp := now envW |}).
Proof.
  split.
  - apply (stream_url_reply_after_append cfgW envW_save_rejects (db stW) idW)
      with (media := assetW) (token := streamTokenW); [compute_eq|compute_eq|reflexivity].
  - apply (stream_url_reply_after_append cfgW envW (db stW) idW) with (url := streamUrlW).
    compute_eq.
Defined.



Lemma id_checked_before_store_witness :
  post_view envW_save_rejects (db stW) "123"
    = Normal (reply 400 (Json_message "Invalid media ID"), db stW) /\
  get_analytics envW (db stW) "123456789012345678901234"
    = Normal (reply 404 (Json_message "Media not found")).
Proof.
  split.
  - apply (id_checked_before_store cfgW envW_save_rejects (db stW) "123"). reflexivity.
  - apply (id_checked_before_store cfgW envW (db stW) "123456789012345678901234").
    compute_eq.
Defined.

(** C4 as the contract words it fails: with the append rejecting, an
    authenticated, valid, unthrottled call for an existing asset is answered
    with status 500, which is none of 201, 429, 404 and 400. *)
Lemma view_ingestion_store_failure :
  (handle cfgW stW envW_save_rejects (POST_view bearerW idW)).1
    = Normal (reply 500 (Json_message "Server error")) /\
  ~ in_ingest_contract (handle cfgW stW envW_save_rejects (POST_view bearerW idW)).1.
Proof.
  assert (Hrun : (handle cfgW stW envW_save_rejects (POST_view bearerW idW)).1
                 = Normal (reply 500 (Json_message "Server error"))) by compute_eq.
  split; [exact Hrun|]. rewrite Hrun. intros (r & [= <-] & Hr).
  cbn in Hr. rewrite !elem_of_cons, elem_of_nil in Hr. lia.
Qed.

Lemma view_ingestion_outcomes_witness :
  exists o st',
    handle cfgW stW envW (POST_view bearerW idW) = (o, st') /\
    (findById_rejects (faults envW) = false ->
     exists r, o = Normal r /\ status r ∈ [201; 429; 404; 400; 401; 403; 500]) /\
    (forall r, o = Normal r -> status r = 201 ->
       exists media,
         MediaAsset_findById (faults envW) (db stW) idW = Normal (Some media) /\
         mediaassets (db st') = mediaassets (db stW) /\
         mediaviewlogs (db st') =
           (mediaviewlogs (db stW) ++
            [{| media_id := _id media; viewed_by_ip := ip envW; timestamp := now envW |}])%list) /\
    ((forall r, o = Normal r -> status r ≠ 201) -> db st' = db stW).
Proof. apply (view_ingestion_outcomes cfgW stW envW bearerW idW). Defined.

End Witnesses.

(** ** The further properties on the run *)

Section MoreWitnesses.
Existing Instance binary_codec.
Existing Instance hex24.
Existing Instance address_key.
Existing Instance readable_hash.

Ltac compute_eq :=
  lazymatch goal with |- _ = ?rhs => vm_cast_no_check (@eq_refl _ rhs) end.

(** Signup, login and a second signup with the same email, one at a time:
    201, the token [sessionW], 409, and one record. *)
Example signup_login_signup :
  Auth.run "session-secret" {| Auth.users := []; Auth.in_flight := [] |}
    (Auth.one_at_a_time
       [ (signupEnvW, Auth.POST_signup (Some (Some "a@b.c", Some "s3cret")));
         (loginEnvW, Auth.POST_login (Some (Some "a@b.c", Some "s3cret")));
         (signupEnvW_again, Auth.POST_signup (Some (Some "a@b.c", Some "other"))) ])
  = ( [ None; Some (Normal (Auth.reply 201 (Auth.Json_user "u1" "a@b.c")));
        Some (Normal (Auth.reply 200 (Auth.Json_token sessionW))); None;
        Some (Normal (Auth.reply 409 (Auth.Json_message "User already exists"))); None ],
      {| Auth.users := [adminW]; Auth.in_flight := [] |} ).
Proof. compute_eq. Qed.

(** Keys of express-rate-limit 8, and two clients of one /56 network
    sharing a window under them: the second view is throttled, where under
    whole addresses it is logged. *)
Example one_network_one_window :
  @keyGenerator subnet_key "2001:db8::1" = "2001:db8::/56" /\
  @keyGenerator subnet_key "2001:db8::2" = "2001:db8::/56" /\
  @keyGenerator subnet_key "2001:DB8:0:1ff::1" = "2001:db8:0:100::/56" /\
  @keyGenerator subnet_key "::ffff:127.0.0.1" = "::/56" /\
  @keyGenerator subnet_key "10.0.0.3" = "10.0.0.3" /\
  (@run binary_codec hex24 subnet_key cfgW stW
     [(envW_v6, POST_view bearerW idW); (envW_v6_neighbour, POST_view bearerW idW)]).1
    = [Normal (reply 201 (Json_message "View logged")); Normal too_many] /\
  (@run binary_codec hex24 address_key cfgW stW
     [(envW_v6, POST_view bearerW idW); (envW_v6_neighbour, POST_view bearerW idW)]).1
    = [Normal (reply 201 (Json_message "View logged"));
       Normal (reply 201 (Json_message "View logged"))].
Proof. split_and!; compute_eq. Qed.

(** A request without a parsed body, at each route that reads one. *)
Example requests_without_body :
  handle cfgW stW envW (POST_media bearerW None) = (Throw, stW) /\
  handle cfgW stW envW (POST_media None None)
    = (Normal (reply 401 (Json_message "Unauthorized: No token provided")), stW) /\
  Auth.signup signupEnvW [] None = Throw /\
  Auth.login "session-secret" loginEnvW [adminW] None = Throw.
Proof. split_and!; compute_eq. Qed.

(** Two rows in year 10000, a day apart, are counted under one key. *)
Example far_future_summary :
  views_per_day (summarize [farW; farW_next_day]) = {["+010000-01" := 2]}.
Proof. compute_eq. Qed.

Lemma summary_ignores_other_requests_witness :
  handle cfgW (handle cfgW stW_two envW_later (GET_stream_url "64d2f0c1a5b3e47f9c0d1e2f")).2
    envW (GET_analytics bearerW idW)
  = (Normal (reply 200 (Json_summary (summarize logsW))),
     (handle cfgW stW_two envW_later (GET_stream_url "64d2f0c1a5b3e47f9c0d1e2f")).2).
Proof.
  apply (summary_ignores_other_requests cfgW stW_two envW_later
           (GET_stream_url "64d2f0c1a5b3e47f9c0d1e2f") envW bearerW idW
           (summarize logsW) stW_two).
  - compute_eq.
  - intros id' [= <-]. vm_compute. intros [=].
Defined.

Lemma summary_is_consistent_witness :
  let s := summarize logsW in
  unique_ips s <= total_views s /\
  size (views_per_day s) <= total_views s /\
  sum_values (views_per_day s) = total_views s /\
  (forall day c, views_per_day s !! day = Some c -> 1 <= c <= total_views s) /\
  (total_views s = 0 <-> views_per_day s = ∅) /\
  (total_views s = 0 <-> unique_ips s = 0).
Proof.
  apply (summary_is_consistent cfgW stW envW bearerW idW (summarize logsW) stW).
  compute_eq.
Defined.

Lemma stream_secret_unset_witness :
  (get_stream_url cfgW_no_stream_secret envW (db stW) idW).2 = db stW /\
  status (get_stream_url cfgW_no_stream_secret envW (db stW) idW).1 ∈ [400; 404; 500] /\
  (forall media, MediaAsset_findById (faults envW) (db stW) idW = Normal (Some media) ->
     get_stream_url cfgW_no_stream_secret envW (db stW) idW
       = (reply 500 (Json_message "Server error"), db stW)) /\
  (forall token, get_stream cfgW_no_stream_secret envW token
     = reply 403 (Send "Forbidden: Invalid or expired stream link.")).
Proof. apply (stream_secret_unset cfgW_no_stream_secret envW (db stW) idW). reflexivity. Defined.


Lemma views_grouped_by_utc_day_witness :
  day_key {| media_id := "64d2f0c1a5b3e47f9c0d1e2a"; viewed_by_ip := "10.0.0.1";
             timestamp := 1722506400000 |}
  = day_key {| media_id := "64d2f0c1a5b3e47f9c0d1e2a"; viewed_by_ip := "10.0.0.2";
               timestamp := 1722556799999 |}.
Proof. apply views_grouped_by_utc_day. reflexivity. Defined.

Lemma days_merge_outside_four_digit_years_witness :
  ~ (0 <= 10000 <= 9999)%Z /\
  day_key farW = String.append "+" (String.append (pad6 (Z.abs 10000))
                   (String.append "-" (pad2 1))) /\
  day_key farW_next_day = day_key farW.
Proof.
  apply (days_merge_outside_four_digit_years farW farW_next_day 10000 1 1 2).
  - unfold fourDigitYear. cbn. lia.
  - reflexivity.
  - reflexivity.
Defined.

Lemma signup_outcomes_witness :
  Auth.signup signupEnvW [] None = Throw /\
  Auth.signup signupEnvW_again [adminW] (Some (Some "a@b.c", Some "other"))
    = Normal (Auth.reply 409 (Auth.Json_message "User already exists"), [adminW]) /\
  Auth.signup signupEnvW [] (Some (Some "a@b.c", None))
    = Normal (Auth.reply 400 (Auth.Json_message "Email and password required"), []).
Proof.
  split_and!.
  - apply (signup_outcomes signupEnvW [] None). reflexivity.
  - apply (signup_outcomes signupEnvW_again [adminW] (Some (Some "a@b.c", Some "other")))
      with (u := adminW) (pw := "other").
    + reflexivity.
    + intros [=].
    + intros [=].
    + reflexivity.
    + left.
  - eapply (signup_outcomes signupEnvW [] (Some (Some "a@b.c", None))); [reflexivity|].
    right. by left.
Defined.

Lemma emails_unique_unless_signups_overlap_witness :
  (let s' := (Auth.run "session-secret" {| Auth.users := []; Auth.in_flight := [] |}
                (Auth.one_at_a_time
                   [ (signupEnvW, Auth.POST_signup (Some (Some "a@b.c", Some "s3cret")));
                     (loginEnvW, Auth.POST_login (Some (Some "a@b.c", Some "s3cret")));
                     (signupEnvW_again,
                      Auth.POST_signup (Some (Some "a@b.c", Some "other"))) ])).2 in
   NoDup (Auth.email <$> Auth.users s') /\
   Auth.in_flight s' = [] /\
   exists new, Auth.users s' = ([] ++ new)%list) /\
  (let u1 := {| Auth._id := Auth.new_id signupEnvW; Auth.email := "a@b.c";
                Auth.hashed_password := bcrypt_hash "s3cret" 10 (Auth.salt signupEnvW) |} in
   let u2 := {| Auth._id := Auth.new_id signupEnvW_again; Auth.email := "a@b.c";
                Auth.hashed_password :=
                  bcrypt_hash "other" 10 (Auth.salt signupEnvW_again) |} in
   Auth.run "session-secret" {| Auth.users := []; Auth.in_flight := [] |}
     [ Auth.Arrives signupEnvW (Auth.POST_signup (Some (Some "a@b.c", Some "s3cret")));
       Auth.Arrives signupEnvW_again
         (Auth.POST_signup (Some (Some "a@b.c", Some "other")));
       Auth.Saves 0; Auth.Saves 0 ]
   = ( [ None; None;
         Some (Normal (Auth.reply 201 (Auth.Json_user (Auth.new_id signupEnvW) "a@b.c")));
         Some (Normal (Auth.reply 201
                         (Auth.Json_user (Auth.new_id signupEnvW_again) "a@b.c"))) ],
       {| Auth.users := (([] ++ [u1]) ++ [u2])%list; Auth.in_flight := [] |} ) /\
   ~ NoDup (Auth.email <$> (([] ++ [u1]) ++ [u2])%list)).
Proof.
  split.
  - apply (emails_unique_unless_signups_overlap "session-secret"). constructor.
  - apply (emails_unique_unless_signups_overlap "session-secret").
    + intros [=].
    + intros [=].
    + intros [=].
    + intros u Hu. by apply elem_of_nil in Hu.
    + reflexivity.
    + reflexivity.
    + reflexivity.
    + reflexivity.
Defined.


Lemma signup_login_session_witness :
  let iat := (Auth.now loginEnvW / 1000)%Z in
  let claims : gmap string JsVal :=
    <["exp" := JNum (iat + 3600)]> (<["iat" := JNum iat]>
      (<["email" := JStr "a@b.c"]> {["id" := JStr "u1"]})) in
  exists token,
    Auth.login "session-secret" loginEnvW [adminW] (Some (Some "a@b.c", Some "s3cret"))
      = Normal (Auth.reply 200 (Auth.Json_token token)) /\
    (forall e3 scheme, has_space scheme = false ->
       (now e3 < (iat + 3600) * 1000)%Z ->
       authenticateToken cfgW e3 (Some (scheme +:+ " " +:+ token)) = inr claims) /\
    (forall e3 scheme, has_space scheme = false ->
       ((iat + 3600) * 1000 <= now e3)%Z ->
       authenticateToken cfgW e3 (Some (scheme +:+ " " +:+ token))
         = inl (reply 403 (Json_message "Forbidden: Invalid token"))).
Proof.
  apply (signup_login_session cfgW "session-secret" [] signupEnvW loginEnvW
           (Some "a@b.c") (Some "s3cret") (Auth.reply 201 (Auth.Json_user "u1" "a@b.c"))
           [adminW]).
  - compute_eq.
  - reflexivity.
  - reflexivity.
  - intros [=].
  - reflexivity.
Defined.

Lemma tokens_told_apart_by_secret_only_witness :
  get_stream cfgW_one_secret envW sessionW
    = reply 200 (Send "Access granted to stream file: undefined").
Proof.
  apply (tokens_told_apart_by_secret_only cfgW_one_secret "session-secret")
    with (e := loginEnvW) (users := [adminW])
         (body := Some (Some "a@b.c", Some "s3cret")).
  - reflexivity.
  - compute_eq.
  - vm_compute. reflexivity.
Defined.

Lemma accepted_view_adds_one_witness :
  exists media,
    MediaAsset_findById (faults envW_later) (db stW) idW = Normal (Some media) /\
    let day := slice0 10 (toISOString (now envW)) in
    let known := bool_decide (ip envW ∈ viewed_by_ip <$> logs_of (_id media) (db stW)) in
    handle cfgW (handle cfgW stW envW (POST_view bearerW idW)).2 envW_later
        (GET_analytics bearerW idW)
      = (Normal (reply 200 (Json_summary
           {| total_views := total_views (summarize logsW) + 1;
              unique_ips := unique_ips (summarize logsW) + (if known then 0 else 1);
              views_per_day :=
                <[day := default 0 (views_per_day (summarize logsW) !! day) + 1]>
                  (views_per_day (summarize logsW)) |})),
         (handle cfgW stW envW (POST_view bearerW idW)).2).
Proof.
  apply (accepted_view_adds_one cfgW stW envW (POST_view bearerW idW) envW_later bearerW idW
           (summarize logsW) stW).
  - compute_eq.
  - compute_eq.
  - intros id' [= <-]. reflexivity.
Defined.

Lemma registered_asset_streams_witness :
  exists token st2,
    file_url registeredW = default "" (Some "http://example.com/video.mp4") /\
    handle cfgW
        (handle cfgW initial envW
           (POST_media bearerW
              (Some (Some "Test Video", Some "video",
                     Some "http://example.com/video.mp4")))).2
        envW_later (GET_stream_url "64D2F0C1A5B3E47F9C0D1E2B")
      = (Normal (reply 200 (Json_stream_url
           ("http://localhost:" +:+ PORT cfgW +:+ "/stream/" +:+ token))), st2) /\
    forall e3, (now e3 < (now envW_later / 1000 + 600) * 1000)%Z ->
      get_stream cfgW e3 token
        = reply 200 (Send ("Access granted to stream file: " +:+
                             default "" (Some "http://example.com/video.mp4"))).
Proof.
  apply (registered_asset_streams cfgW initial envW bearerW (Some "Test Video") (Some "video")
           (Some "http://example.com/video.mp4") registeredW).
  - compute_eq.
  - intros a' Ha'. by apply elem_of_nil in Ha'.
  - reflexivity.
  - intros [=].
  - reflexivity.
  - reflexivity.
Defined.

Lemma unanswered_requests_witness :
  (handle cfgW stW envW_lookup_rejects (GET_analytics bearerW idW)).1 = Throw /\
  (handle cfgW stW envW (POST_media bearerW None)).1 = Throw /\
  db (handle cfgW stW envW_lookup_rejects (POST_view bearerW idW)).2 = db stW.
Proof.
  assert (Hthrow : forall e req,
    (exists a user,
       authenticateToken cfgW e a = inr user /\
       (req = POST_media a None \/
        exists id,
          isValid id = true /\
          findById_rejects (faults e) = true /\
          ((req = POST_view a id /\
            (viewRateLimiter (hits stW) (ip e) (now e)).1 = true) \/
           req = GET_analytics a id))) ->
    (handle cfgW stW e req).1 = Throw).
  { intros e req. apply (unanswered_requests cfgW stW e req). }
  split_and!.
  - apply Hthrow. exists bearerW, userW. split; [compute_eq|]. right. exists idW.
    split_and!; [reflexivity..|by right].
  - apply Hthrow. exists bearerW, userW. split; [compute_eq|]. by left.
  - apply (unanswered_requests cfgW stW envW_lookup_rejects (POST_view bearerW idW)).
    apply Hthrow. exists bearerW, userW. split; [compute_eq|]. right. exists idW.
    split_and!; [reflexivity..|by left].
Defined.

End MoreWitnesses.
